(** * pv-site-api: the database helpers of [pv_site_api/_db_helpers.py]

    A shallow embedding of the helpers that query the forecast and generation
    tables and that check a caller's access to sites, followed by the
    properties the specification states about them.

    Conventions of the embedding.
    - A [datetime] is the number of microseconds since [datetime.min]
      (0001-01-01T00:00:00); Python raises [OverflowError] when arithmetic
      leaves the representable range, and so does the model.
    - A [uuid.UUID] is its 128-bit integer; [str] prints it in the canonical
      8-4-4-4-12 lower-case form.
    - A Python [float] is never computed on by these helpers: it is carried as
      the 64 bits of its encoding.
    - The storage engine is a list-based relational model: a table is the list
      of its rows in storage order, a join is the nested loop over that order,
      ORDER BY is a stable sort and DISTINCT ON keeps the first row of each
      group of equal keys.
    - Code runs in a monad of state and exceptions; the state holds the clock
      and the list of statements sent to the storage engine so far. *)

From Stdlib Require Import Ascii.
From stdpp Require Import base list gmap strings.

Local Open Scope Z_scope.

(** ** Python values *)

Definition datetime := Z.
Definition float64 := Z.
Definition UUID := N.

(** [datetime.max], 9999-12-31T23:59:59.999999, in microseconds. *)
Definition datetime_max : Z := 315537897599999999.

Definition datetime_valid (t : datetime) : Prop := 0 ≤ t ≤ datetime_max.

Inductive Exception :=
  | KeyError (key : string)
  | ValueError
  | OverflowError
  | HTTPException (status_code : Z) (detail : string)
  | DBAPIError.

Inductive result (A : Type) :=
  | Ok (a : A)
  | Raise (e : Exception).
Arguments Ok {A} a.
Arguments Raise {A} e.

(** *** Strings *)

Definition dquote : ascii := "034"%char.
Definition squote : ascii := "039"%char.
Definition backslash : ascii := "092"%char.

Definition hex_digit (d : N) : ascii :=
  match d with
  | 0 => "0" | 1 => "1" | 2 => "2" | 3 => "3" | 4 => "4" | 5 => "5"
  | 6 => "6" | 7 => "7" | 8 => "8" | 9 => "9" | 10 => "a" | 11 => "b"
  | 12 => "c" | 13 => "d" | 14 => "e" | _ => "f"
  end%N%char.

(** The [n] least significant hexadecimal digits of [x], most significant
    first: ['%0nx' % x] for [x < 16^n]. *)
Fixpoint hex_digits (n : nat) (x : N) : list ascii :=
  match n with
  | O => []
  | S n' => hex_digits n' (x / 16)%N ++ [hex_digit (x mod 16)%N]
  end.

(** [str(u)] for a [uuid.UUID]. *)
Definition str_uuid (u : UUID) : string :=
  let h := hex_digits 32 u in
  let hyphen := "-"%char in
  String.string_of_list_ascii
    (take 8 h ++ hyphen :: take 4 (drop 8 h) ++ hyphen :: take 4 (drop 12 h)
       ++ hyphen :: take 4 (drop 16 h) ++ hyphen :: drop 20 h).

Definition string_mem (c : ascii) (s : string) : bool :=
  bool_decide (c ∈ String.list_ascii_of_string s).

(** [repr] of a [str]: single quotes unless the string holds one and no double
    quote; the quote and the backslash are escaped, control characters are
    written [\t], [\n], [\r] or [\xNN]. Bytes above 127 (the UTF-8 encoding of
    a non-ASCII character) are kept as they are. *)
Definition repr_char (quote c : ascii) : list ascii :=
  let n := N_of_ascii c in
  if bool_decide (c = quote ∨ c = backslash) then [backslash; c]
  else if bool_decide (n = 9%N) then [backslash; "t"%char]
  else if bool_decide (n = 10%N) then [backslash; "n"%char]
  else if bool_decide (n = 13%N) then [backslash; "r"%char]
  else if bool_decide (n < 32 ∨ n = 127)%N
       then backslash :: "x"%char :: hex_digits 2 n
  else [c].

Definition repr_str (s : string) : string :=
  let quote :=
    if string_mem squote s && negb (string_mem dquote s) then dquote else squote in
  String.string_of_list_ascii
    (quote :: concat (repr_char quote <$> String.list_ascii_of_string s) ++ [quote]).

Fixpoint join (sep : string) (l : list string) : string :=
  match l with
  | [] => ""
  | [x] => x
  | x :: l' => x +:+ sep +:+ join sep l'
  end.

(** [repr] of a [list] of [str], as an f-string prints it. *)
Definition repr_list (l : list string) : string :=
  "[" +:+ join ", " (repr_str <$> l) +:+ "]".

(** A character that [repr] prints as it is, between single quotes. *)
Definition plain_char (c : ascii) : Prop :=
  c ≠ squote ∧ c ≠ dquote ∧ c ≠ backslash
  ∧ (32 ≤ N_of_ascii c)%N ∧ N_of_ascii c ≠ 127%N.

(** *** sorted *)

Section sorted.
Context {A : Type} (le : A → A → bool).

Fixpoint insert_sorted (x : A) (l : list A) : list A :=
  match l with
  | [] => [x]
  | y :: l' => if le x y then x :: y :: l' else y :: insert_sorted x l'
  end.

(** A stable sort: of two elements that compare equal, the one that comes
    first in [l] comes first in the result. *)
Fixpoint sorted (l : list A) : list A :=
  match l with
  | [] => []
  | x :: l' => insert_sorted x (sorted l')
  end.

(** [l] is in order: every element is below the ones after it. *)
Fixpoint ordered (l : list A) : Prop :=
  match l with
  | [] => True
  | x :: l' => (∀ y, y ∈ l' → le x y = true) ∧ ordered l'
  end.
End sorted.

(** The order of [str]: lexicographic on the code points. *)
Definition str_le (s1 s2 : string) : bool := String.leb s1 s2.

(** *** datetime and timedelta *)

Definition timedelta := Z.

Definition us_per_day : Z := 86400000000.

(** [dt.timedelta(minutes=m)], in microseconds. *)
Definition timedelta_minutes (m : Z) : result timedelta :=
  let us := m * 60000000 in
  if bool_decide (-999999999 ≤ us `div` us_per_day ≤ 999999999) then Ok us
  else Raise OverflowError.

(** [t - delta] on a [datetime]. *)
Definition datetime_sub (t : datetime) (delta : timedelta) : result datetime :=
  let r := t - delta in
  if bool_decide (0 ≤ r ≤ datetime_max) then Ok r
  else Raise OverflowError.

(** ** The tables of [pvsite_datamodel.sqlmodels] *)

Module SiteSQL.
Record t := mk {
  site_uuid : UUID;
  client_site_id : Z;
  client_site_name : string;
}.
#[global] Instance eq_dec : EqDecision t.
Proof. solve_decision. Defined.
End SiteSQL.

Module SiteGroupSQL.
Record t := mk { sites : list SiteSQL.t }.
#[global] Instance eq_dec : EqDecision t.
Proof. solve_decision. Defined.
End SiteGroupSQL.

Module UserSQL.
Record t := mk {
  email : string;
  site_group : SiteGroupSQL.t;
}.
#[global] Instance eq_dec : EqDecision t.
Proof. solve_decision. Defined.
End UserSQL.

Module ForecastSQL.
Record t := mk {
  forecast_uuid : UUID;
  site_uuid : UUID;
  timestamp_utc : datetime;
  forecast_version : string;
}.
#[global] Instance eq_dec : EqDecision t.
Proof. solve_decision. Defined.
End ForecastSQL.

Module ForecastValueSQL.
Record t := mk {
  forecast_value_uuid : UUID;
  forecast_uuid : UUID;
  start_utc : datetime;
  end_utc : datetime;
  horizon_minutes : Z;
  forecast_power_kw : float64;
}.
#[global] Instance eq_dec : EqDecision t.
Proof. solve_decision. Defined.
End ForecastValueSQL.

Module GenerationSQL.
Record t := mk {
  generation_uuid : UUID;
  site_uuid : UUID;
  start_utc : datetime;
  generation_power_kw : float64;
}.
#[global] Instance eq_dec : EqDecision t.
Proof. solve_decision. Defined.
End GenerationSQL.

(** What a [Session] reads from. *)
Record Session := {
  forecasts : list ForecastSQL.t;
  forecast_values : list ForecastValueSQL.t;
}.

(** A row of a forecast query: [(ForecastSQL, ForecastValueSQL)]. *)
Definition Row : Type := ForecastSQL.t * ForecastValueSQL.t.

(** ** The monad of the helpers *)

Inductive Statement :=
  | SelectForecastsForHorizon
  | SelectLatestForecastBySites.

Record World := {
  utcnow : datetime;
  executed : list Statement;
}.

Definition M (A : Type) : Type := World → result A * World.

Definition raise {A} (e : Exception) : M A := λ w, (Raise e, w).

#[global] Instance M_ret : MRet M := λ A a w, (Ok a, w).
#[global] Instance M_bind : MBind M := λ A B k m w,
  match m w with
  | (Ok a, w') => k a w'
  | (Raise e, w') => (Raise e, w')
  end.

Definition lift {A} (r : result A) : M A := λ w, (r, w).

(** [datetime.utcnow()]. *)
Definition datetime_utcnow : M datetime := λ w, (Ok (utcnow w), w).

(** The world after [stmt] was sent to the storage engine. *)
Definition record_statement (stmt : Statement) (w : World) : World :=
  {| utcnow := utcnow w; executed := executed w ++ [stmt] |}.

(** The storage engine is sent [stmt]; [rows] is what it answers. *)
Definition session_execute {A} (stmt : Statement) (rows : result A) : M A :=
  λ w, (rows, record_statement stmt w).

(** A [for] loop whose body may raise. *)
Fixpoint for_each {A} (body : A → M unit) (l : list A) : M unit :=
  match l with
  | [] => mret tt
  | x :: l' => body x;; for_each body l'
  end.

(** A list comprehension whose element expression may raise. *)
Fixpoint list_comp {A B} (f : A → result B) (l : list A) : result (list B) :=
  match l with
  | [] => Ok []
  | x :: l' =>
      match f x with
      | Raise e => Raise e
      | Ok y => match list_comp f l' with
                | Raise e => Raise e
                | Ok ys => Ok (y :: ys)
                end
      end
  end.

(** [d[key]] on a [dict]. *)
Definition dict_getitem (d : gmap string string) (key : string) : M string :=
  match d !! key with
  | Some v => mret v
  | None => raise (KeyError key)
  end.

(** ** The storage engine *)

(** DISTINCT ON [key]: of the rows that agree on [key], the first one is kept.
    [seen] holds the keys of the rows kept so far. *)
Fixpoint distinct_on {A K} `{EqDecision K} (key : A → K) (seen : list K)
    (rows : list A) : list A :=
  match rows with
  | [] => []
  | r :: rows' =>
      if bool_decide (key r ∈ seen) then distinct_on key seen rows'
      else r :: distinct_on key (key r :: seen) rows'
  end.

(** [ForecastSQL JOIN ForecastValueSQL], on the foreign key [forecast_uuid]. *)
Definition join_forecast_values (fs : list ForecastSQL.t)
    (vs : list ForecastValueSQL.t) : list Row :=
  fs ≫= λ f,
    pair f <$> filter (λ v, ForecastValueSQL.forecast_uuid v
                              = ForecastSQL.forecast_uuid f) vs.

(** The key [(site_uuid, timestamp_utc)] of a forecast run. *)
Definition run_key (f : ForecastSQL.t) : UUID * datetime :=
  (ForecastSQL.site_uuid f, ForecastSQL.timestamp_utc f).

(** ORDER BY site_uuid, timestamp_utc. *)
Definition by_site_timestamp (f1 f2 : ForecastSQL.t) : bool :=
  bool_decide
    ((ForecastSQL.site_uuid f1 < ForecastSQL.site_uuid f2)%N
     ∨ (ForecastSQL.site_uuid f1 = ForecastSQL.site_uuid f2
        ∧ ForecastSQL.timestamp_utc f1 ≤ ForecastSQL.timestamp_utc f2)).

(** ORDER BY site_uuid, timestamp_utc DESC. *)
Definition by_site_timestamp_desc (f1 f2 : ForecastSQL.t) : bool :=
  bool_decide
    ((ForecastSQL.site_uuid f1 < ForecastSQL.site_uuid f2)%N
     ∨ (ForecastSQL.site_uuid f1 = ForecastSQL.site_uuid f2
        ∧ ForecastSQL.timestamp_utc f2 ≤ ForecastSQL.timestamp_utc f1)).

(** ORDER BY timestamp_utc, start_utc on joined rows. *)
Definition by_timestamp_start (r1 r2 : Row) : bool :=
  bool_decide
    (ForecastSQL.timestamp_utc r1.1 < ForecastSQL.timestamp_utc r2.1
     ∨ (ForecastSQL.timestamp_utc r1.1 = ForecastSQL.timestamp_utc r2.1
        ∧ ForecastValueSQL.start_utc r1.2 ≤ ForecastValueSQL.start_utc r2.2)).

(** ** The output objects of [pydantic_models] for generation *)

Module PVActualValue.
Record t := mk {
  datetime_utc : datetime;
  actual_generation_kw : float64;
}.
#[global] Instance eq_dec : EqDecision t.
Proof. solve_decision. Defined.
End PVActualValue.

Module MultiplePVActual.
Record t := mk {
  site_uuid : string;
  pv_actual_values : list PVActualValue.t;
}.
#[global] Instance eq_dec : EqDecision t.
Proof. solve_decision. Defined.
End MultiplePVActual.

Module PVActualValueBySite.
Record t := mk {
  datetime_utc : datetime;
  generation_kw_by_location : list (string * float64);
}.
#[global] Instance eq_dec : EqDecision t.
Proof. solve_decision. Defined.
End PVActualValueBySite.

(** A [defaultdict(list)] in insertion order: [d[k].append(v)]. *)
Fixpoint dict_append {K V} `{EqDecision K} (k : K) (v : V)
    (d : list (K * list V)) : list (K * list V) :=
  match d with
  | [] => [(k, [v])]
  | (k', vs) :: d' =>
      if decide (k = k') then (k', vs ++ [v]) :: d'
      else (k', vs) :: dict_append k v d'
  end.

(** Modelled from the spec: [generation_rows_to_pydantic] of
    [pv_site_api/convert.py], which is not among the sources. The spec has it
    reshape the fetched readings "into a per-site grouping (mapping from site
    identity to ordered sequence of readings)": each row is appended, in input
    order, to the entry of its site in [pv_actual_values_per_site], and every
    entry becomes one [MultiplePVActual]. *)
Definition generation_rows_to_pydantic
    (pv_actual_values_per_site : list (string * list PVActualValue.t))
    (rows : list GenerationSQL.t) (site_uuids : list string)
    : list MultiplePVActual.t :=
  let per_site :=
    foldl (λ d row,
             dict_append (str_uuid (GenerationSQL.site_uuid row))
               (PVActualValue.mk (GenerationSQL.start_utc row)
                  (GenerationSQL.generation_power_kw row)) d)
          pv_actual_values_per_site rows in
  (λ kv, MultiplePVActual.mk kv.1 kv.2) <$> per_site.

(** Modelled from the spec: [generation_rows_to_pydantic_compact] of
    [pv_site_api/convert.py], which is not among the sources. The spec has it
    reshape the readings "into a compact per-timestamp grouping": each row is
    appended, in input order, to the entry of its timestamp, and every entry
    becomes one [PVActualValueBySite]. *)
Definition generation_rows_to_pydantic_compact (rows : list GenerationSQL.t)
    : list PVActualValueBySite.t :=
  let per_datetime :=
    foldl (λ d row,
             dict_append (GenerationSQL.start_utc row)
               (str_uuid (GenerationSQL.site_uuid row),
                GenerationSQL.generation_power_kw row) d)
          [] rows in
  (λ kv, PVActualValueBySite.mk kv.1 kv.2) <$> per_datetime.

(** ** The helpers *)

Definition email_claim : string := "https://openclimatefix.org/email".

(** The functions the helpers call and that live outside the module are
    parameters: what they do is not fixed here. *)
Section helpers.
(** [uuid.UUID(s)]: [None] where the constructor raises [ValueError]. *)
Variable uuid_UUID : string → option UUID.
(** The cast of a bound string to the [uuid] column type by the storage
    engine: [None] where the statement fails. *)
Variable uuid_in : string → option UUID.
(** [pvsite_datamodel.read.user.get_user_by_email]. *)
Variable get_user_by_email : Session → string → M UserSQL.t.
(** [pvsite_datamodel.read.generation.get_pv_generation_by_sites]. *)
Variable get_pv_generation_by_sites :
  Session → datetime → list UUID → M (list GenerationSQL.t).
(** The forecast converters of [pv_site_api/convert.py]. *)
Variables Forecast OneDatetimeManyForecasts : Type.
Variable forecast_rows_to_pydantic : list Row → list Forecast.
Variable forecast_rows_to_pydantic_compact :
  list Row → list OneDatetimeManyForecasts.

(** [uuid.UUID(su)] as an expression that may raise. *)
Definition py_uuid (su : string) : result UUID :=
  match uuid_UUID su with
  | Some u => Ok u
  | None => Raise ValueError
  end.

(** A string bound to a statement where the [uuid] column is compared. *)
Definition bind_uuid (su : string) : result UUID :=
  match uuid_in su with
  | Some u => Ok u
  | None => Raise DBAPIError
  end.

(** [_get_forecasts_for_horizon] (lines 44-69). The statement is built
    first: [start_utc - dt.timedelta(minutes=horizon_minutes)] is computed by
    Python and may raise. [session.execute] then sends
    SELECT DISTINCT ON (site_uuid, timestamp_utc) ... FROM forecasts JOIN
    forecast_values WHERE (the six conditions, in the order of the source)
    ORDER BY site_uuid, timestamp_utc, with [site_uuids] bound as they are. *)
Definition _get_forecasts_for_horizon (session : Session)
    (site_uuids : list string) (start_utc end_utc : datetime)
    (horizon_minutes : Z) : M (list Row) :=
  delta ← lift (timedelta_minutes horizon_minutes);
  lower ← lift (datetime_sub start_utc delta);
  session_execute SelectForecastsForHorizon
    match list_comp bind_uuid site_uuids with
    | Raise e => Raise e
    | Ok uuids =>
        Ok (distinct_on (λ r : Row, run_key r.1) []
              (sorted (λ r1 r2 : Row, by_site_timestamp r1.1 r2.1)
                 (filter (λ r : Row,
                      ForecastSQL.site_uuid r.1 ∈ uuids
                      ∧ lower ≤ ForecastSQL.timestamp_utc r.1
                      ∧ ForecastSQL.timestamp_utc r.1 < end_utc
                      ∧ ForecastValueSQL.horizon_minutes r.2 = horizon_minutes
                      ∧ start_utc ≤ ForecastValueSQL.start_utc r.2
                      ∧ ForecastValueSQL.start_utc r.2 < end_utc)
                    (join_forecast_values (forecasts session)
                       (forecast_values session)))))
    end.

(** [_get_latest_forecast_by_sites] (lines 72-100). The list comprehension
    [[uuid.UUID(su) for su in site_uuids]] runs while the subquery is built.
    The subquery is SELECT DISTINCT ON (site_uuid) ... WHERE site_uuid IN
    (...) ORDER BY site_uuid, timestamp_utc DESC; it is joined to the values
    and filtered on [start_utc] when that is not [None]. The result of
    [query.order_by(...)] on line 98 is not assigned, so [query.all()] runs
    the query without it. *)
Definition _get_latest_forecast_by_sites (session : Session)
    (site_uuids : list string) (start_utc : option datetime) : M (list Row) :=
  uuids ← lift (list_comp py_uuid site_uuids);
  let subquery :=
    distinct_on ForecastSQL.site_uuid []
      (sorted by_site_timestamp_desc
         (filter (λ f, ForecastSQL.site_uuid f ∈ uuids) (forecasts session))) in
  let query := join_forecast_values subquery (forecast_values session) in
  let query :=
    match start_utc with
    | Some start_utc =>
        filter (λ r : Row, start_utc ≤ ForecastValueSQL.start_utc r.2) query
    | None => query
    end in
  let _ := sorted by_timestamp_start query in
  session_execute SelectLatestForecastBySites (Ok query).

(** [get_forecasts_by_sites] (lines 103-140); the calls to [logger] have no
    effect on the result and are left out. *)
Definition get_forecasts_by_sites (session : Session)
    (site_uuids : list string) (start_utc : datetime) (horizon_minutes : Z)
    (compact : bool) : M (list Forecast + list OneDatetimeManyForecasts) :=
  end_utc ← datetime_utcnow;
  rows_past ← _get_forecasts_for_horizon session site_uuids start_utc end_utc
                horizon_minutes;
  rows_future ← _get_latest_forecast_by_sites session site_uuids
                  (Some start_utc);
  if compact
  then mret (inr (forecast_rows_to_pydantic_compact (rows_past ++ rows_future)))
  else mret (inl (forecast_rows_to_pydantic (rows_past ++ rows_future))).

(** [get_generation_by_sites] (lines 143-159). The argument
    [[uuid.UUID(su) for su in site_uuids]] is evaluated before
    [get_pv_generation_by_sites] is called. *)
Definition get_generation_by_sites (session : Session)
    (site_uuids : list string) (start_utc : datetime) (compact : bool)
    : M (list MultiplePVActual.t + list PVActualValueBySite.t) :=
  uuids ← lift (list_comp py_uuid site_uuids);
  rows ← get_pv_generation_by_sites session start_utc uuids;
  let pv_actual_values_per_site : list (string * list PVActualValue.t) := [] in
  if negb compact
  then mret (inl (generation_rows_to_pydantic pv_actual_values_per_site rows
                    site_uuids))
  else mret (inr (generation_rows_to_pydantic_compact rows)).

(** [check_user_has_access_to_site] (lines 194-209). *)
Definition check_user_has_access_to_site (session : Session)
    (auth : gmap string string) (site_uuid : string) : M unit :=
  email ← dict_getitem auth email_claim;
  user ← get_user_by_email session email;
  let site_uuids :=
    (λ site, str_uuid (SiteSQL.site_uuid site))
      <$> SiteGroupSQL.sites (UserSQL.site_group user) in
  if bool_decide (site_uuid ∉ site_uuids)
  then raise (HTTPException 403
                ("Forbidden. User (" +:+ email +:+ ") "
                 +:+ "does not have access to this site " +:+ site_uuid +:+ ". "
                 +:+ "User has access to " +:+ repr_list site_uuids))
  else mret tt.

(** [check_user_has_access_to_sites] (lines 212-231). After line 221
    [site_uuids] is the sorted requested list: the loop runs over it, the
    membership test of line 225 looks into it, and the message prints it. *)
Definition check_user_has_access_to_sites (session : Session)
    (auth : gmap string string) (site_uuids : list string) : M unit :=
  email ← dict_getitem auth email_claim;
  user ← get_user_by_email session email;
  let user_site_uuids :=
    sorted str_le ((λ site, str_uuid (SiteSQL.site_uuid site))
                     <$> SiteGroupSQL.sites (UserSQL.site_group user)) in
  let site_uuids := sorted str_le site_uuids in
  if bool_decide (user_site_uuids ≠ site_uuids)
  then for_each
         (λ site_uuid,
            if bool_decide (site_uuid ∉ site_uuids)
            then raise (HTTPException 403
                          ("Forbidden. User (" +:+ email +:+ ") "
                           +:+ "does not have access to this site "
                           +:+ site_uuid +:+ ". "
                           +:+ "User has access to " +:+ repr_list site_uuids))
            else mret tt)
         site_uuids
  else mret tt.

End helpers.

Arguments get_forecasts_by_sites _ _ {_ _} _ _ _ _ _ _ _.

(** ** Concrete collaborators and sample data *)

Definition hex_value (c : ascii) : option N :=
  let n := N_of_ascii c in
  if bool_decide (48 ≤ n ≤ 57)%N then Some (n - 48)%N
  else if bool_decide (97 ≤ n ≤ 102)%N then Some (n - 87)%N
  else if bool_decide (65 ≤ n ≤ 70)%N then Some (n - 55)%N
  else None.

Fixpoint hex_number (acc : N) (l : list ascii) : option N :=
  match l with
  | [] => Some acc
  | c :: l' =>
      match hex_value c with
      | Some d => hex_number (16 * acc + d)%N l'
      | None => None
      end
  end.

(** A parser of the canonical 8-4-4-4-12 form only, which [uuid.UUID] and the
    storage engine both accept. It stands for either in the examples. *)
Definition canonical_uuid (s : string) : option UUID :=
  let l := String.list_ascii_of_string s in
  let hyphen := Some "-"%char in
  if bool_decide (length l = 36%nat ∧ l !! 8%nat = hyphen ∧ l !! 13%nat = hyphen
                  ∧ l !! 18%nat = hyphen ∧ l !! 23%nat = hyphen)
  then hex_number 0 (take 8 l ++ take 4 (drop 9 l) ++ take 4 (drop 14 l)
                       ++ take 4 (drop 19 l) ++ drop 24 l)
  else None.

(** A user table: the lookup fails when no user has the email. *)
Definition lookup_user (users : list UserSQL.t) (session : Session)
    (email : string) : M UserSQL.t :=
  match list_find (λ u, UserSQL.email u = email) users with
  | Some (_, u) => mret u
  | None => raise DBAPIError
  end.

Definition site_A : SiteSQL.t := SiteSQL.mk 10%N 1 "A".
Definition site_B : SiteSQL.t := SiteSQL.mk 11%N 2 "B".
Definition site_C : SiteSQL.t := SiteSQL.mk 12%N 3 "C".

Definition uuid_A : string := "00000000-0000-0000-0000-00000000000a".
Definition uuid_B : string := "00000000-0000-0000-0000-00000000000b".
Definition uuid_C : string := "00000000-0000-0000-0000-00000000000c".

Definition alice : UserSQL.t :=
  UserSQL.mk "alice@example.org" (SiteGroupSQL.mk [site_A; site_B]).

Definition alice_auth : gmap string string :=
  {[ email_claim := "alice@example.org" ]}.

Definition empty_session : Session :=
  {| forecasts := []; forecast_values := [] |}.

Definition world0 : World := {| utcnow := 63000000000000000; executed := [] |}.

(** [x] occurs in [s]. *)
Definition substring_of (x s : string) : Prop :=
  ∃ pre post, s = pre +:+ x +:+ post.

(** The strings a caller is entitled to: [str(site.site_uuid)] of each site
    of the caller's group. *)
Definition entitled_site_uuids (user : UserSQL.t) : list string :=
  (λ site, str_uuid (SiteSQL.site_uuid site))
    <$> SiteGroupSQL.sites (UserSQL.site_group user).

(** ** What the specification asks of the forecast queries *)

(** [r] pairs a stored run with one of its stored values. *)
Definition stored_pair (session : Session) (r : Row) : Prop :=
  r.1 ∈ forecasts session ∧ r.2 ∈ forecast_values session
  ∧ ForecastValueSQL.forecast_uuid r.2 = ForecastSQL.forecast_uuid r.1.

(** The run of [r] is of one of the sites [uuids], its value has horizon
    [horizon_minutes] and a target time in [[start_utc, end_utc)], and the run
    was issued in [[start_utc - horizon_minutes, end_utc)]. *)
Definition in_horizon_window (uuids : list UUID) (start_utc end_utc : datetime)
    (horizon_minutes : Z) (r : Row) : Prop :=
  ForecastSQL.site_uuid r.1 ∈ uuids
  ∧ ForecastValueSQL.horizon_minutes r.2 = horizon_minutes
  ∧ start_utc ≤ ForecastValueSQL.start_utc r.2 < end_utc
  ∧ start_utc - horizon_minutes * 60000000
    ≤ ForecastSQL.timestamp_utc r.1 < end_utc.

#[global] Instance in_horizon_window_dec uuids start_utc end_utc horizon_minutes r :
  Decision (in_horizon_window uuids start_utc end_utc horizon_minutes r).
Proof. unfold in_horizon_window. apply _. Defined.

(** The stored pairs the historical query selects from, in join order. *)
Definition horizon_candidates (session : Session) (uuids : list UUID)
    (start_utc end_utc : datetime) (horizon_minutes : Z) : list Row :=
  filter (in_horizon_window uuids start_utc end_utc horizon_minutes)
    (join_forecast_values (forecasts session) (forecast_values session)).

(** [f] is a stored run issued no earlier than any stored run of its site. *)
Definition latest_run (session : Session) (f : ForecastSQL.t) : Prop :=
  f ∈ forecasts session
  ∧ ∀ f', f' ∈ forecasts session →
          ForecastSQL.site_uuid f' = ForecastSQL.site_uuid f →
          ForecastSQL.timestamp_utc f' ≤ ForecastSQL.timestamp_utc f.

(** The subquery of the forward slice: one run per requested site. *)
Definition latest_run_per_site (session : Session) (uuids : list UUID)
    : list ForecastSQL.t :=
  distinct_on ForecastSQL.site_uuid []
    (sorted by_site_timestamp_desc
       (filter (λ f, ForecastSQL.site_uuid f ∈ uuids) (forecasts session))).

(** The lower bound of the forward slice lets [v] through. *)
Definition from_start (start_utc : option datetime) (v : ForecastValueSQL.t)
    : Prop :=
  match start_utc with
  | Some start_utc => start_utc ≤ ForecastValueSQL.start_utc v
  | None => True
  end.

#[global] Instance from_start_dec start_utc v : Decision (from_start start_utc v).
Proof. destruct start_utc; cbn; apply _. Defined.

(** ** What the specification asks of the generation reshape *)

(** A reading: the site it belongs to, its timestamp and the measured
    generation. *)
Definition Reading : Type := string * datetime * float64.

Definition reading_of_row (row : GenerationSQL.t) : Reading :=
  (str_uuid (GenerationSQL.site_uuid row), GenerationSQL.start_utc row,
   GenerationSQL.generation_power_kw row).

(** The readings a per-site output holds, in output order. *)
Definition readings_per_site (out : list MultiplePVActual.t) : list Reading :=
  out ≫= λ m,
    (λ v, (MultiplePVActual.site_uuid m, PVActualValue.datetime_utc v,
           PVActualValue.actual_generation_kw v))
      <$> MultiplePVActual.pv_actual_values m.

(** The readings a per-timestamp output holds, in output order. *)
Definition readings_per_datetime (out : list PVActualValueBySite.t)
    : list Reading :=
  out ≫= λ e,
    (λ sv : string * float64, (sv.1, PVActualValueBySite.datetime_utc e, sv.2))
      <$> PVActualValueBySite.generation_kw_by_location e.

(** The (key, value) pairs of a [defaultdict(list)]. *)
Definition dict_entries {K V} (d : list (K * list V)) : list (K * V) :=
  d ≫= λ kv, pair kv.1 <$> kv.2.

(** A generation table behind [get_pv_generation_by_sites]: the readings of
    the requested sites at or after [start_utc]. *)
Definition select_generation (table : list GenerationSQL.t) (session : Session)
    (start_utc : datetime) (uuids : list UUID) : M (list GenerationSQL.t) :=
  mret (filter (λ row, GenerationSQL.site_uuid row ∈ uuids
                       ∧ start_utc ≤ GenerationSQL.start_utc row) table).

Definition generation_table : list GenerationSQL.t :=
  [ GenerationSQL.mk 201%N 10%N 63000000000000000 500;
    GenerationSQL.mk 202%N 11%N 63000000000000000 700;
    GenerationSQL.mk 203%N 10%N 63000000300000000 510;
    GenerationSQL.mk 204%N 10%N 63000000300000000 510 ].

(** Sample forecasts: times are counted from [T0]. *)
Definition T0 : datetime := 63000000000000000.
Definition minutes (m : Z) : Z := m * 60000000.

(** Two runs written for site A with the same issuance time, each with a
    30-minute value. *)
Definition run_1 : ForecastSQL.t := ForecastSQL.mk 1%N 10%N T0 "0.0.1".
Definition run_2 : ForecastSQL.t := ForecastSQL.mk 2%N 10%N T0 "0.0.1".
Definition value_1 : ForecastValueSQL.t :=
  ForecastValueSQL.mk 101%N 1%N (T0 + minutes 30) (T0 + minutes 45) 30 1000.
Definition value_2 : ForecastValueSQL.t :=
  ForecastValueSQL.mk 102%N 2%N (T0 + minutes 30) (T0 + minutes 45) 30 2000.

(** The scenario of the specification: site A has a run issued at [T0] with a
    30-minute value, and a later run issued at [T0 + 60] minutes with a value
    one hour ahead. *)
Definition run_a : ForecastSQL.t := ForecastSQL.mk 3%N 10%N T0 "0.0.1".
Definition run_b : ForecastSQL.t :=
  ForecastSQL.mk 4%N 10%N (T0 + minutes 60) "0.0.1".
Definition value_a : ForecastValueSQL.t :=
  ForecastValueSQL.mk 103%N 3%N (T0 + minutes 30) (T0 + minutes 45) 30 1000.
Definition value_b : ForecastValueSQL.t :=
  ForecastValueSQL.mk 104%N 4%N (T0 + minutes 120) (T0 + minutes 135) 60 3000.

Definition two_runs : Session :=
  {| forecasts := [run_a; run_b]; forecast_values := [value_a; value_b] |}.

(** One run of site A, whose 30-minute value is both in the past window and
    in the latest run. *)
Definition one_run : Session :=
  {| forecasts := [run_a]; forecast_values := [value_a] |}.

(** A storage engine that binds every string. *)
Definition lenient_uuid_in (su : string) : option UUID :=
  Some (default 0%N (canonical_uuid su)).

Definition duplicate_runs : Session :=
  {| forecasts := [run_1; run_2]; forecast_values := [value_1; value_2] |}.

(** ** The site helpers *)

(** [Result.one_or_none()] raises [MultipleResultsFound], which is none of the
    exceptions of the other helpers, when the statement yields more than one
    row. *)
Inductive QueryException :=
  | Propagated (e : Exception)
  | MultipleResultsFound.

Definition one_or_none {A} (rows : list A) : QueryException + option A :=
  match rows with
  | [] => inr None
  | [row] => inr (Some row)
  | _ => inl MultipleResultsFound
  end.

(** The two helpers on the sites table only read. They are given as functions
    of the table, which [sites_table] finds for a session; the statement they
    send is not recorded in a [World]. [site_to_pydantic] (lines 168-183)
    copies the columns of a site into the class [PVSiteMetadata], whose
    declaration lives outside the module: it is a function of the site that
    may raise. *)
Section site_helpers.
Variable uuid_in : string → option UUID.
Variable sites_table : Session → list SiteSQL.t.
Variable PVSiteMetadata : Type.
Variable site_to_pydantic : SiteSQL.t → result PVSiteMetadata.

(** [get_sites_by_uuids] (lines 162-165): SELECT ... FROM sites WHERE
    site_uuid IN (...), then the list comprehension over the rows. *)
Definition get_sites_by_uuids (session : Session) (site_uuids : list string)
    : result (list PVSiteMetadata) :=
  match list_comp (bind_uuid uuid_in) site_uuids with
  | Raise e => Raise e
  | Ok uuids =>
      let sites :=
        filter (λ site, SiteSQL.site_uuid site ∈ uuids) (sites_table session) in
      let pydantic_sites := list_comp site_to_pydantic sites in
      pydantic_sites
  end.

(** [does_site_exist] (lines 186-191): SELECT ... FROM sites WHERE
    site_uuid = ..., then [.one_or_none() is not None]. *)
Definition does_site_exist (session : Session) (site_uuid : string)
    : QueryException + bool :=
  match bind_uuid uuid_in site_uuid with
  | Raise e => inl (Propagated e)
  | Ok u =>
      match one_or_none (filter (λ site, SiteSQL.site_uuid site = u)
                           (sites_table session)) with
      | inl e => inl e
      | inr row => inr (bool_decide (row ≠ None))
      end
  end.
End site_helpers.

Arguments get_sites_by_uuids _ _ {_} _ _ _.

(** ** Further notions used by the properties *)

(** The key of [f1] comes strictly before the key of [f2] in the order of
    ORDER BY site_uuid, timestamp_utc. *)
Definition run_key_lt (f1 f2 : ForecastSQL.t) : Prop :=
  (ForecastSQL.site_uuid f1 < ForecastSQL.site_uuid f2)%N
  ∨ (ForecastSQL.site_uuid f1 = ForecastSQL.site_uuid f2
     ∧ ForecastSQL.timestamp_utc f1 < ForecastSQL.timestamp_utc f2).

(** The value of [r] targets the issuance time of its run plus its horizon. *)
Definition consistent_pair (r : Row) : Prop :=
  ForecastValueSQL.start_utc r.2
  = ForecastSQL.timestamp_utc r.1
    + ForecastValueSQL.horizon_minutes r.2 * 60000000.

(** A character of the canonical spelling of a UUID: a hyphen, a digit or a
    letter from [a] to [f]. *)
Definition canonical_char (c : ascii) : Prop :=
  c = "-"%char ∨ (48 ≤ N_of_ascii c ≤ 57)%N ∨ (97 ≤ N_of_ascii c ≤ 102)%N.

(** Sample sites tables and a conversion that keeps the identifier. *)
Definition sites_A_B (session : Session) : list SiteSQL.t := [site_A; site_B].
Definition sites_A_A (session : Session) : list SiteSQL.t :=
  [site_A; SiteSQL.mk 10%N 7 "A again"].
Definition site_identifier (site : SiteSQL.t) : result string :=
  Ok (str_uuid (SiteSQL.site_uuid site)).

(** A lookup and a fetch that fail. *)
Definition failing_lookup (session : Session) (email : string) : M UserSQL.t :=
  raise DBAPIError.
Definition failing_fetch (session : Session) (start_utc : datetime)
    (uuids : list UUID) : M (list GenerationSQL.t) :=
  raise DBAPIError.

(** * Properties *)

(** ** The monad *)

Lemma bind_Ok {A B} (m : M A) (k : A → M B) w a w' :
  m w = (Ok a, w') → (m ≫= k) w = k a w'.
Proof. intros Hm. unfold mbind, M_bind. by rewrite Hm. Qed.

Lemma bind_Raise {A B} (m : M A) (k : A → M B) w e w' :
  m w = (Raise e, w') → (m ≫= k) w = (Raise e, w').
Proof. intros Hm. unfold mbind, M_bind. by rewrite Hm. Qed.

Lemma dict_getitem_Some d key v w :
  d !! key = Some v → dict_getitem d key w = (Ok v, w).
Proof. intros Hd. unfold dict_getitem. by rewrite Hd. Qed.

(** A loop whose body returns on every element returns, in the same world. *)
Lemma for_each_returns {A} (body : A → M unit) (l : list A) w :
  (∀ x, x ∈ l → body x w = (Ok tt, w)) → for_each body l w = (Ok tt, w).
Proof.
  induction l as [|x l IH]; intros Hbody; [done|].
  cbn [for_each]. rewrite (bind_Ok _ _ w tt w).
  - apply IH. intros y Hy. apply Hbody. by right.
  - apply Hbody. by left.
Qed.

(** ** Strings *)

Lemma append_assoc (s1 s2 s3 : string) : (s1 +:+ s2) +:+ s3 = s1 +:+ s2 +:+ s3.
Proof.
  induction s1 as [|c s1 IH]; [done|].
  change (String c ((s1 +:+ s2) +:+ s3) = String c (s1 +:+ s2 +:+ s3)).
  by f_equal.
Qed.

Lemma append_nil_r (s : string) : s +:+ "" = s.
Proof.
  induction s as [|c s IH]; [done|].
  change (String c (s +:+ "") = String c s). by f_equal.
Qed.

Lemma string_of_list_ascii_app (l1 l2 : list ascii) :
  String.string_of_list_ascii (l1 ++ l2)
  = String.string_of_list_ascii l1 +:+ String.string_of_list_ascii l2.
Proof.
  induction l1 as [|c l1 IH]; [done|].
  change (String c (String.string_of_list_ascii (l1 ++ l2))
          = String c (String.string_of_list_ascii l1
                      +:+ String.string_of_list_ascii l2)).
  by f_equal.
Qed.

Lemma substring_of_refl s : substring_of s s.
Proof. exists "", "". cbn. by rewrite append_nil_r. Qed.

Lemma substring_of_trans a b c :
  substring_of a b → substring_of b c → substring_of a c.
Proof.
  intros (p1 & q1 & ->) (p2 & q2 & ->).
  exists (p2 +:+ p1), (q1 +:+ q2). by rewrite !append_assoc.
Qed.

Lemma substring_of_app_l a b s : substring_of a b → substring_of a (b +:+ s).
Proof.
  intros (p & q & ->). exists p, (q +:+ s). by rewrite !append_assoc.
Qed.

Lemma substring_of_app_r a b s : substring_of a b → substring_of a (s +:+ b).
Proof.
  intros (p & q & ->). exists (s +:+ p), q. by rewrite !append_assoc.
Qed.

Lemma substring_of_join sep x l : x ∈ l → substring_of x (join sep l).
Proof.
  induction l as [|y l IH]; [by intros ?%elem_of_nil|].
  intros [->|Hx]%elem_of_cons.
  - destruct l; [apply substring_of_refl|].
    cbn [join]. apply substring_of_app_l, substring_of_refl.
  - destruct l as [|z l]; [by apply elem_of_nil in Hx|].
    change (join sep (y :: z :: l)) with (y +:+ sep +:+ join sep (z :: l)).
    by apply substring_of_app_r, substring_of_app_r, IH.
Qed.

Lemma repr_char_plain q c :
  q = squote ∨ q = dquote → plain_char c → repr_char q c = [c].
Proof.
  intros Hq (H1 & H2 & H3 & H4 & H5). unfold repr_char.
  rewrite bool_decide_eq_false_2 by (intros [?|?]; destruct Hq; congruence).
  rewrite !bool_decide_eq_false_2; [done|lia..].
Qed.

Lemma repr_str_plain s :
  Forall plain_char (String.list_ascii_of_string s) →
  repr_str s = "'" +:+ s +:+ "'".
Proof.
  intros Hs. unfold repr_str, string_mem.
  rewrite (bool_decide_eq_false_2 (squote ∈ _)); last first.
  { intros Hin. rewrite Forall_forall in Hs. by destruct (Hs _ Hin) as [? _]. }
  cbn [andb].
  assert (concat (repr_char squote <$> String.list_ascii_of_string s)
          = String.list_ascii_of_string s) as ->.
  { induction Hs as [|c l Hc _ IH]; [done|].
    cbn. rewrite repr_char_plain by auto. cbn. by rewrite IH. }
  cbn [String.string_of_list_ascii]. rewrite string_of_list_ascii_app.
  by rewrite String.string_of_list_ascii_of_string.
Qed.

Lemma hex_digit_plain d : plain_char (hex_digit d).
Proof.
  destruct d as [|p]; [by vm_compute|].
  do 4 (try destruct p as [p|p|]); by vm_compute.
Qed.

Lemma hex_digits_plain n x : Forall plain_char (hex_digits n x).
Proof.
  revert x. induction n as [|n IH]; intros x; [constructor|].
  cbn. apply Forall_app. split; [apply IH|].
  constructor; [apply hex_digit_plain|constructor].
Qed.

Lemma str_uuid_plain u :
  Forall plain_char (String.list_ascii_of_string (str_uuid u)).
Proof.
  unfold str_uuid. rewrite String.list_ascii_of_string_of_list_ascii.
  assert (plain_char "-"%char) as Hh by (by vm_compute).
  pose proof (hex_digits_plain 32 u) as H32.
  repeat first
    [ apply Forall_app; split
    | apply Forall_cons; split; [exact Hh|]
    | by apply Forall_take
    | by apply Forall_drop
    | by apply Forall_take, Forall_drop ].
Qed.

Lemma repr_list_reports (l : list string) s :
  s ∈ l →
  Forall (λ x, Forall plain_char (String.list_ascii_of_string x)) l →
  substring_of s (repr_list l).
Proof.
  intros Hs Hl. unfold repr_list.
  apply substring_of_app_r, substring_of_app_l.
  apply substring_of_trans with (repr_str s).
  - rewrite repr_str_plain by (rewrite Forall_forall in Hl; by apply Hl).
    apply substring_of_app_r, substring_of_app_l, substring_of_refl.
  - apply substring_of_join. by apply list_elem_of_fmap_2.
Qed.

(** ** Access checks *)

Section access.
Variable get_user_by_email : Session → string → M UserSQL.t.

(** The multi-site check iterates over the requested list and looks each
    element up in that same list: no iteration raises. *)
Lemma check_sites_returns session auth site_uuids email user w w' :
  auth !! email_claim = Some email →
  get_user_by_email session email w = (Ok user, w') →
  check_user_has_access_to_sites get_user_by_email session auth site_uuids w
  = (Ok tt, w').
Proof.
  intros Hauth Huser. unfold check_user_has_access_to_sites.
  rewrite (bind_Ok _ _ _ _ _ (dict_getitem_Some _ _ _ _ Hauth)).
  rewrite (bind_Ok _ _ _ _ _ Huser).
  case_bool_decide as Hne; [|done].
  apply for_each_returns. intros x Hx.
  by rewrite bool_decide_eq_false_2 by (intros Hnot; by apply Hnot).
Qed.

(** C2: whenever the auth dict holds the email claim and the user lookup
    succeeds, [check_user_has_access_to_sites] returns normally, whatever
    the requested list is; it never raises the Forbidden error, because the
    membership test of the loop looks each requested identifier up in the
    requested list itself. *)
Theorem check_user_has_access_to_sites_never_raises
    session auth site_uuids email user w w' :
  auth !! email_claim = Some email →
  get_user_by_email session email w = (Ok user, w') →
  check_user_has_access_to_sites get_user_by_email session auth site_uuids w
  = (Ok tt, w')
  ∧ ∀ detail w'',
      check_user_has_access_to_sites get_user_by_email session auth
        site_uuids w
      ≠ (Raise (HTTPException 403 detail), w'').
Proof.
  intros Hauth Huser.
  pose proof (check_sites_returns _ _ site_uuids _ _ _ _ Hauth Huser) as Hret.
  split; [done|]. intros detail w''. by rewrite Hret.
Qed.

(** C1, as amended: when the sorted entitled list equals the sorted
    requested list, and also when every requested identifier is among the
    entitled ones (a subset request), [check_user_has_access_to_sites]
    returns without an error. *)
Theorem check_user_has_access_to_sites_entitled
    session auth site_uuids email user w w' :
  auth !! email_claim = Some email →
  get_user_by_email session email w = (Ok user, w') →
  sorted str_le (entitled_site_uuids user) = sorted str_le site_uuids
  ∨ site_uuids ⊆ entitled_site_uuids user →
  check_user_has_access_to_sites get_user_by_email session auth site_uuids w
  = (Ok tt, w').
Proof.
  intros Hauth Huser [Heq|Hsub].
  - unfold check_user_has_access_to_sites.
    rewrite (bind_Ok _ _ _ _ _ (dict_getitem_Some _ _ _ _ Hauth)).
    rewrite (bind_Ok _ _ _ _ _ Huser).
    fold (entitled_site_uuids user).
    by rewrite bool_decide_eq_false_2 by (by intros Hne).
  - by eapply check_sites_returns.
Qed.

(** C8: [check_user_has_access_to_site] raises [HTTPException] with status
    403 exactly when the requested site is not among the caller's entitled
    sites, and returns otherwise; the detail of the error holds the caller's
    email, the denied site identifier and every entitled site identifier. *)
Theorem check_user_has_access_to_site_forbidden_iff
    session auth site_uuid email user w w' :
  auth !! email_claim = Some email →
  get_user_by_email session email w = (Ok user, w') →
  let entitled := entitled_site_uuids user in
  let detail :=
    "Forbidden. User (" +:+ email
    +:+ ") does not have access to this site " +:+ site_uuid
    +:+ ". User has access to " +:+ repr_list entitled in
  (check_user_has_access_to_site get_user_by_email session auth site_uuid w
   = (Raise (HTTPException 403 detail), w') ↔ site_uuid ∉ entitled)
  ∧ (check_user_has_access_to_site get_user_by_email session auth site_uuid w
     = (Ok tt, w') ↔ site_uuid ∈ entitled)
  ∧ substring_of email detail
  ∧ substring_of site_uuid detail
  ∧ ∀ s, s ∈ entitled → substring_of s detail.
Proof.
  intros Hauth Huser entitled detail.
  assert (check_user_has_access_to_site get_user_by_email session auth
            site_uuid w
          = if bool_decide (site_uuid ∉ entitled)
            then (Raise (HTTPException 403 detail), w') else (Ok tt, w'))
    as ->.
  { unfold check_user_has_access_to_site.
    rewrite (bind_Ok _ _ _ _ _ (dict_getitem_Some _ _ _ _ Hauth)).
    rewrite (bind_Ok _ _ _ _ _ Huser).
    fold (entitled_site_uuids user). fold entitled.
    by case_bool_decide. }
  split_and!.
  - case_bool_decide; [done|]. split; [done|]. tauto.
  - case_bool_decide; [|done]. split; [done|]. tauto.
  - apply substring_of_app_r, substring_of_app_l, substring_of_refl.
  - do 3 apply substring_of_app_r. apply substring_of_app_l, substring_of_refl.
  - intros s Hs. do 5 apply substring_of_app_r.
    apply repr_list_reports; [done|].
    apply Forall_fmap, Forall_forall. intros site _. apply str_uuid_plain.
Qed.
End access.

(** C2 at a concrete caller and request. *)
Lemma check_user_has_access_to_sites_never_raises_witness :
  check_user_has_access_to_sites (lookup_user [alice]) empty_session
    alice_auth [uuid_A; uuid_C] world0
  = (Ok tt, world0)
  ∧ ∀ detail w'',
      check_user_has_access_to_sites (lookup_user [alice]) empty_session
        alice_auth [uuid_A; uuid_C] world0
      ≠ (Raise (HTTPException 403 detail), w'').
Proof.
  apply (check_user_has_access_to_sites_never_raises (lookup_user [alice])
           empty_session alice_auth [uuid_A; uuid_C] "alice@example.org" alice
           world0 world0).
  - reflexivity.
  - reflexivity.
Defined.

(** C1 fails on the code: with entitled sites A and B, a request for A alone
    and a request for A, B and C both differ from the entitled list once
    sorted, and both are let through. *)
Lemma check_user_has_access_to_sites_mismatch_accepted :
  sorted str_le (entitled_site_uuids alice) ≠ sorted str_le [uuid_A]
  ∧ check_user_has_access_to_sites (lookup_user [alice]) empty_session
      alice_auth [uuid_A] world0
    = (Ok tt, world0)
  ∧ sorted str_le (entitled_site_uuids alice)
    ≠ sorted str_le [uuid_C; uuid_B; uuid_A]
  ∧ check_user_has_access_to_sites (lookup_user [alice]) empty_session
      alice_auth [uuid_C; uuid_B; uuid_A] world0
    = (Ok tt, world0).
Proof. split_and!; by vm_compute. Qed.

(** C1 as amended, at a subset request. *)
Lemma check_user_has_access_to_sites_entitled_witness :
  check_user_has_access_to_sites (lookup_user [alice]) empty_session
    alice_auth [uuid_B] world0
  = (Ok tt, world0).
Proof.
  apply (check_user_has_access_to_sites_entitled (lookup_user [alice])
           empty_session alice_auth [uuid_B] "alice@example.org" alice
           world0 world0).
  - reflexivity.
  - reflexivity.
  - right. apply (bool_decide_unpack _). vm_compute. exact I.
Defined.

(** C8 at a concrete caller: site C is denied, with the full message. *)
Lemma check_user_has_access_to_site_forbidden_iff_witness :
  check_user_has_access_to_site (lookup_user [alice]) empty_session
    alice_auth uuid_C world0
  = (Raise (HTTPException 403
       ("Forbidden. User (alice@example.org) does not have access to this site "
        +:+ "00000000-0000-0000-0000-00000000000c. User has access to "
        +:+ "['00000000-0000-0000-0000-00000000000a', "
        +:+ "'00000000-0000-0000-0000-00000000000b']")), world0).
Proof.
  apply (check_user_has_access_to_site_forbidden_iff (lookup_user [alice])
           empty_session alice_auth uuid_C "alice@example.org" alice
           world0 world0);
    [reflexivity|reflexivity|].
  vm_compute. intros Hin.
  repeat (apply elem_of_cons in Hin as [Hin|Hin]; [discriminate Hin|]).
  by apply elem_of_nil in Hin.
Defined.

(** ** The storage engine *)

Section sorted_facts.
Context {A : Type} (le : A → A → bool).

Lemma insert_sorted_Permutation x l : insert_sorted le x l ≡ₚ x :: l.
Proof.
  induction l as [|y l IH]; [done|].
  cbn. destruct (le x y); [done|].
  rewrite IH. apply Permutation_swap.
Qed.

Lemma sorted_Permutation l : sorted le l ≡ₚ l.
Proof.
  induction l as [|x l IH]; [done|].
  cbn. by rewrite insert_sorted_Permutation, IH.
Qed.

Lemma elem_of_sorted x l : x ∈ sorted le l ↔ x ∈ l.
Proof. by rewrite sorted_Permutation. Qed.

Section stable.
Context (P : A → Prop) `{!∀ x, Decision (P x)}.
(** The elements picked out by [P] tie in the order. *)
Hypothesis tie : ∀ x y, P x → P y → le x y = true.

Lemma filter_insert_sorted x l :
  filter P (insert_sorted le x l) = filter P (x :: l).
Proof.
  induction l as [|y l IH]; [done|].
  cbn [insert_sorted]. destruct (le x y) eqn:Hle; [done|].
  rewrite (filter_cons _ y), IH, !(filter_cons _ x), (filter_cons _ y).
  destruct (decide (P x)) as [Hx|Hx], (decide (P y)) as [Hy|Hy]; try done.
  by rewrite tie in Hle.
Qed.

(** Stability: sorting does not reorder the elements picked out by [P]. *)
Lemma filter_sorted l : filter P (sorted le l) = filter P l.
Proof.
  induction l as [|x l IH]; [done|].
  cbn [sorted]. by rewrite filter_insert_sorted, !filter_cons, IH.
Qed.
End stable.
End sorted_facts.

Section distinct_on_facts.
Context {A K : Type} `{EqDecision K} (key : A → K).

(** A row that is kept carries a key not seen before and is the first row
    of its key. *)
Lemma distinct_on_elem seen rows r :
  r ∈ distinct_on key seen rows →
  (key r ∉ seen) ∧ head (filter (λ x, key x = key r) rows) = Some r.
Proof.
  revert seen. induction rows as [|a rows IH]; intros seen.
  { by intros ?%elem_of_nil. }
  cbn [distinct_on]. case_bool_decide as Ha.
  - intros [Hr Hhd]%IH. split; [done|].
    rewrite filter_cons_False; [done|]. intros Hk. apply Hr. by rewrite <-Hk.
  - intros [->|[Hr Hhd]%IH]%elem_of_cons.
    + split; [done|]. by rewrite filter_cons_True.
    + apply not_elem_of_cons in Hr as [Hne Hr]. split; [done|].
      by rewrite filter_cons_False.
Qed.

Lemma distinct_on_NoDup seen rows : NoDup (key <$> distinct_on key seen rows).
Proof.
  revert seen. induction rows as [|a rows IH]; intros seen; [constructor|].
  cbn [distinct_on]. case_bool_decide as Ha; [apply IH|].
  rewrite fmap_cons. apply NoDup_cons. split; [|apply IH].
  intros (r & Hk & [Hr _]%distinct_on_elem)%list_elem_of_fmap.
  apply Hr. rewrite Hk. apply list_elem_of_here.
Qed.

(** Every key of the input that was not seen before is represented. *)
Lemma distinct_on_complete seen rows r :
  r ∈ rows → key r ∉ seen →
  ∃ r', r' ∈ distinct_on key seen rows ∧ key r' = key r.
Proof.
  revert seen. induction rows as [|a rows IH]; intros seen.
  { by intros ?%elem_of_nil. }
  intros Hr Hseen. cbn [distinct_on]. case_bool_decide as Ha.
  - apply elem_of_cons in Hr as [->|Hr]; [done|]. by apply IH.
  - destruct (decide (key r = key a)) as [Heq|Hne].
    { exists a. split; [apply list_elem_of_here|done]. }
    apply elem_of_cons in Hr as [->|Hr]; [done|].
    destruct (IH (key a :: seen) Hr) as (r' & Hr' & Hk).
    { by apply not_elem_of_cons. }
    exists r'. split; [by apply list_elem_of_further|done].
Qed.
End distinct_on_facts.

Lemma elem_of_join_forecast_values f v fs vs :
  (f, v) ∈ join_forecast_values fs vs
  ↔ f ∈ fs ∧ v ∈ vs
    ∧ ForecastValueSQL.forecast_uuid v = ForecastSQL.forecast_uuid f.
Proof.
  unfold join_forecast_values. rewrite list_elem_of_bind. split.
  - intros (f' & (v' & [= <- <-] & [Hfk Hv]%list_elem_of_filter)%list_elem_of_fmap
            & Hf).
    done.
  - intros (Hf & Hv & Hfk). exists f. split; [|done].
    apply list_elem_of_fmap. exists v. split; [done|].
    by apply list_elem_of_filter.
Qed.

Lemma list_comp_Ok {A B} (f : A → result B) l ys :
  Forall2 (λ x y, f x = Ok y) l ys → list_comp f l = Ok ys.
Proof.
  induction 1 as [|x y l ys Hx _ IH]; [done|].
  cbn. by rewrite Hx, IH.
Qed.

Lemma bind_uuid_Forall2 uuid_in site_uuids uuids :
  Forall2 (λ su u, uuid_in su = Some u) site_uuids uuids →
  list_comp (bind_uuid uuid_in) site_uuids = Ok uuids.
Proof.
  intros Hall. apply list_comp_Ok. eapply Forall2_impl; [exact Hall|].
  intros su u Hsu. unfold bind_uuid. by rewrite Hsu.
Qed.

Lemma py_uuid_Forall2 uuid_UUID site_uuids uuids :
  Forall2 (λ su u, uuid_UUID su = Some u) site_uuids uuids →
  list_comp (py_uuid uuid_UUID) site_uuids = Ok uuids.
Proof.
  intros Hall. apply list_comp_Ok. eapply Forall2_impl; [exact Hall|].
  intros su u Hsu. unfold py_uuid. by rewrite Hsu.
Qed.

(** ** Dates *)

Lemma horizon_lower_bound start_utc horizon_minutes :
  datetime_valid start_utc →
  datetime_valid (start_utc - horizon_minutes * 60000000) →
  timedelta_minutes horizon_minutes = Ok (horizon_minutes * 60000000)
  ∧ datetime_sub start_utc (horizon_minutes * 60000000)
    = Ok (start_utc - horizon_minutes * 60000000).
Proof.
  unfold datetime_valid, datetime_max, timedelta_minutes, datetime_sub,
    us_per_day.
  intros Hs Hl. split.
  - rewrite bool_decide_eq_true_2; [done|]. split.
    + apply Z.div_le_lower_bound; lia.
    + apply Z.lt_succ_r, Z.div_lt_upper_bound; lia.
  - by rewrite bool_decide_eq_true_2.
Qed.

(** ** The historical slice *)

Lemma by_site_timestamp_tie (f1 f2 : ForecastSQL.t) :
  run_key f1 = run_key f2 → by_site_timestamp f1 f2 = true.
Proof.
  unfold run_key, by_site_timestamp. intros [= Hs Ht].
  apply bool_decide_eq_true_2. right. split; [done|lia].
Qed.

Lemma elem_of_horizon_candidates session uuids start_utc end_utc
    horizon_minutes r :
  r ∈ horizon_candidates session uuids start_utc end_utc horizon_minutes
  ↔ stored_pair session r
    ∧ in_horizon_window uuids start_utc end_utc horizon_minutes r.
Proof.
  unfold horizon_candidates, stored_pair. destruct r as [f v].
  rewrite list_elem_of_filter, elem_of_join_forecast_values. tauto.
Qed.

Section historical.
Variable uuid_in : string → option UUID.
Variables (session : Session) (site_uuids : list string) (uuids : list UUID).
Variables (start_utc end_utc : datetime) (horizon_minutes : Z).
Hypothesis bound : Forall2 (λ su u, uuid_in su = Some u) site_uuids uuids.
Hypothesis start_valid : datetime_valid start_utc.
Hypothesis lower_valid :
  datetime_valid (start_utc - horizon_minutes * 60000000).

(** The rows of the historical query: the candidates, ordered by site then
    issuance time, one per (site, issuance time). *)
Lemma get_forecasts_for_horizon_rows w :
  _get_forecasts_for_horizon uuid_in session site_uuids start_utc end_utc
    horizon_minutes w
  = (Ok (distinct_on (λ r : Row, run_key r.1) []
           (sorted (λ r1 r2 : Row, by_site_timestamp r1.1 r2.1)
              (horizon_candidates session uuids start_utc end_utc
                 horizon_minutes))),
     record_statement SelectForecastsForHorizon w).
Proof.
  destruct (horizon_lower_bound _ _ start_valid lower_valid) as [Hdelta Hlow].
  unfold _get_forecasts_for_horizon.
  erewrite bind_Ok by (unfold lift; by rewrite Hdelta).
  erewrite bind_Ok by (unfold lift; by rewrite Hlow).
  unfold session_execute. rewrite (bind_uuid_Forall2 _ _ _ bound).
  do 4 f_equal. unfold horizon_candidates. apply list_filter_iff.
  intros [f v]. unfold in_horizon_window. cbn. tauto.
Qed.

Lemma historical_row_first r :
  r ∈ distinct_on (λ r : Row, run_key r.1) []
        (sorted (λ r1 r2 : Row, by_site_timestamp r1.1 r2.1)
           (horizon_candidates session uuids start_utc end_utc
              horizon_minutes)) →
  head (filter (λ x : Row, run_key x.1 = run_key r.1)
          (horizon_candidates session uuids start_utc end_utc
             horizon_minutes)) = Some r.
Proof.
  intros [_ Hhd]%distinct_on_elem.
  rewrite filter_sorted in Hhd; [done|].
  intros x y Hx Hy. apply by_site_timestamp_tie. congruence.
Qed.
End historical.

(** C3, as amended: for sites the engine can bind and a window whose lower
    bound is a date, [_get_forecasts_for_horizon] sends one statement and
    returns rows such that (1) every row is a stored (run, value) pair of a
    requested site whose value has horizon [horizon_minutes] and a target time
    in [[start_utc, end_utc)] and whose run was issued in
    [[start_utc - horizon_minutes, end_utc)]; (2) every such pair is
    represented: a row of the same site and issuance time is returned;
    (3) no two rows share a site and issuance time. *)
Theorem get_forecasts_for_horizon_window
    uuid_in session site_uuids uuids start_utc end_utc horizon_minutes w :
  Forall2 (λ su u, uuid_in su = Some u) site_uuids uuids →
  datetime_valid start_utc →
  datetime_valid (start_utc - horizon_minutes * 60000000) →
  ∃ rows,
    _get_forecasts_for_horizon uuid_in session site_uuids start_utc end_utc
      horizon_minutes w
    = (Ok rows, record_statement SelectForecastsForHorizon w)
    ∧ (∀ r, r ∈ rows →
         stored_pair session r
         ∧ in_horizon_window uuids start_utc end_utc horizon_minutes r)
    ∧ (∀ r, stored_pair session r →
         in_horizon_window uuids start_utc end_utc horizon_minutes r →
         ∃ r', r' ∈ rows ∧ run_key r'.1 = run_key r.1)
    ∧ NoDup ((λ r : Row, run_key r.1) <$> rows).
Proof.
  intros Hbound Hstart Hlower. eexists. split.
  { by apply get_forecasts_for_horizon_rows with (uuids := uuids). }
  split_and!.
  - intros r Hr%historical_row_first.
    apply head_Some_elem_of, list_elem_of_filter in Hr as [_ Hr].
    by apply elem_of_horizon_candidates.
  - intros r Hstored Hwin.
    apply (distinct_on_complete (λ r : Row, run_key r.1) []).
    + by apply elem_of_sorted, elem_of_horizon_candidates.
    + apply not_elem_of_nil.
  - apply distinct_on_NoDup.
Qed.


(** C3 fails on the code: of two runs written for one site with one issuance
    time, each with a value inside the window, the pair of the second run
    qualifies and is not returned. *)
Lemma get_forecasts_for_horizon_drops_duplicate_run :
  stored_pair duplicate_runs (run_2, value_2)
  ∧ in_horizon_window [10%N] T0 (T0 + minutes 120) 30 (run_2, value_2)
  ∧ _get_forecasts_for_horizon canonical_uuid duplicate_runs [uuid_A]
      T0 (T0 + minutes 120) 30 world0
    = (Ok [(run_1, value_1)], record_statement SelectForecastsForHorizon world0)
  ∧ (run_2, value_2) ∉ [(run_1, value_1)].
Proof.
  split_and!.
  - apply (bool_decide_unpack _). by vm_compute.
  - apply (bool_decide_unpack _). by vm_compute.
  - by vm_compute.
  - apply (bool_decide_unpack _). by vm_compute.
Qed.

(** C3 as amended, on the two duplicate runs. *)
Lemma get_forecasts_for_horizon_window_witness :
  ∃ rows,
    _get_forecasts_for_horizon canonical_uuid duplicate_runs [uuid_A]
      T0 (T0 + minutes 120) 30 world0
    = (Ok rows, record_statement SelectForecastsForHorizon world0)
    ∧ (∀ r, r ∈ rows →
         stored_pair duplicate_runs r
         ∧ in_horizon_window [10%N] T0 (T0 + minutes 120) 30 r)
    ∧ (∀ r, stored_pair duplicate_runs r →
         in_horizon_window [10%N] T0 (T0 + minutes 120) 30 r →
         ∃ r', r' ∈ rows ∧ run_key r'.1 = run_key r.1)
    ∧ NoDup ((λ r : Row, run_key r.1) <$> rows).
Proof.
  apply (get_forecasts_for_horizon_window canonical_uuid duplicate_runs
           [uuid_A] [10%N] T0 (T0 + minutes 120) 30 world0).
  - repeat constructor.
  - vm_compute. split; discriminate.
  - vm_compute. split; discriminate.
Defined.


(** ** The forward slice *)

Section sorted_least.
Context {A : Type} (le : A → A → bool).
Hypothesis le_total : ∀ x y, le x y = true ∨ le y x = true.
Hypothesis le_trans : ∀ x y z, le x y = true → le y z = true → le x z = true.

Lemma insert_sorted_ordered x l :
  ordered le l → ordered le (insert_sorted le x l).
Proof.
  induction l as [|y l IH]; intros Hl; cbn [insert_sorted].
  { split; [by intros ? ?%elem_of_nil|done]. }
  destruct Hl as [Hy Hl]. destruct (le x y) eqn:Hxy.
  - split; [|by split]. intros z [->|Hz]%elem_of_cons; [done|].
    apply le_trans with y; [done|by apply Hy].
  - split; [|by apply IH]. intros z.
    rewrite insert_sorted_Permutation. intros [->|Hz]%elem_of_cons.
    + destruct (le_total x y) as [Hle|Hle]; [congruence|done].
    + by apply Hy.
Qed.

Lemma sorted_ordered l : ordered le (sorted le l).
Proof.
  induction l as [|x l IH]; [done|]. by apply insert_sorted_ordered.
Qed.

(** The first element of a sorted list that satisfies [P] is below every
    element that satisfies [P]. *)
Lemma head_filter_sorted_least (P : A → Prop) `{!∀ x, Decision (P x)} l x y :
  head (filter P (sorted le l)) = Some x → y ∈ l → P y → le x y = true.
Proof.
  pose proof (sorted_ordered l) as Hord.
  rewrite <-(elem_of_sorted le y l).
  induction (sorted le l) as [|a s IH]; [done|].
  destruct Hord as [Ha Hord]. rewrite filter_cons.
  destruct (decide (P a)) as [HPa|HPa].
  - intros [= <-] [Hy|Hy]%elem_of_cons _; [|by apply Ha].
    rewrite Hy. by destruct (le_total a a).
  - intros Hhd [->|Hy]%elem_of_cons HPy; [done|]. by apply IH.
Qed.
End sorted_least.

Lemma head_filter_weaken {A} (P Q : A → Prop) `{!∀ x, Decision (P x)}
    `{!∀ x, Decision (Q x)} (l : list A) x :
  (∀ y, Q y → P y) → Q x → head (filter P l) = Some x →
  head (filter Q l) = Some x.
Proof.
  intros HQP HQx. induction l as [|a l IH]; [done|].
  rewrite !filter_cons.
  destruct (decide (P a)) as [HPa|HPa].
  - intros [= ->]. by rewrite decide_True.
  - intros Hhd. rewrite decide_False by (intros ?; by apply HPa, HQP). by apply IH.
Qed.

Lemma filter_all {A} (P : A → Prop) `{!∀ x, Decision (P x)} (l : list A) :
  (∀ x, P x) → filter P l = l.
Proof.
  intros HP. induction l as [|a l IH]; [done|].
  by rewrite filter_cons_True, IH.
Qed.

Lemma by_site_timestamp_desc_total f1 f2 :
  by_site_timestamp_desc f1 f2 = true ∨ by_site_timestamp_desc f2 f1 = true.
Proof.
  unfold by_site_timestamp_desc. rewrite !bool_decide_eq_true. lia.
Qed.

Lemma by_site_timestamp_desc_trans f1 f2 f3 :
  by_site_timestamp_desc f1 f2 = true → by_site_timestamp_desc f2 f3 = true →
  by_site_timestamp_desc f1 f3 = true.
Proof.
  unfold by_site_timestamp_desc. rewrite !bool_decide_eq_true. lia.
Qed.

Section forward.
Variables (session : Session) (uuids : list UUID).

Lemma latest_run_per_site_elem f :
  f ∈ latest_run_per_site session uuids →
  ForecastSQL.site_uuid f ∈ uuids ∧ latest_run session f
  ∧ head (filter (λ x, run_key x = run_key f) (forecasts session)) = Some f.
Proof.
  unfold latest_run_per_site. intros [_ Hhd]%distinct_on_elem.
  assert (f ∈ forecasts session ∧ ForecastSQL.site_uuid f ∈ uuids)
    as [Hf Hsite].
  { apply head_Some_elem_of, list_elem_of_filter in Hhd as [_ Hin].
    apply elem_of_sorted, list_elem_of_filter in Hin. tauto. }
  split_and!; [done|split; [done|]|].
  - intros g Hg Hgs.
    pose proof (head_filter_sorted_least _ by_site_timestamp_desc_total
                  by_site_timestamp_desc_trans _ _ _ g Hhd) as Hle.
    unfold by_site_timestamp_desc in Hle. rewrite bool_decide_eq_true in Hle.
    destruct Hle as [Hlt|[_ Hle]]; [|done|lia|done].
    apply list_elem_of_filter. split; [by rewrite Hgs|done].
  - apply (head_filter_weaken _ (λ x, run_key x = run_key f)) in Hhd;
      [|by intros y [= ? ?]|done].
    rewrite filter_sorted in Hhd; last first.
    { intros x y [= Hxs Hxt] [= Hys Hyt]. unfold by_site_timestamp_desc.
      apply bool_decide_eq_true. lia. }
    rewrite list_filter_filter in Hhd.
    erewrite list_filter_iff; [exact Hhd|].
    intros x. split; [|tauto]. intros Hx. split; [done|].
    injection Hx as -> _. done.
Qed.



Lemma get_latest_forecast_by_sites_rows uuid_UUID site_uuids start_utc w :
  Forall2 (λ su u, uuid_UUID su = Some u) site_uuids uuids →
  _get_latest_forecast_by_sites uuid_UUID session site_uuids start_utc w
  = (Ok (filter (λ r : Row, from_start start_utc r.2)
           (join_forecast_values (latest_run_per_site session uuids)
              (forecast_values session))),
     record_statement SelectLatestForecastBySites w).
Proof.
  intros Hall. unfold _get_latest_forecast_by_sites.
  erewrite bind_Ok by (unfold lift; by rewrite (py_uuid_Forall2 _ _ _ Hall)).
  unfold session_execute. do 2 f_equal. 
  destruct start_utc as [s|]; [done|].
  symmetry. by apply filter_all.
Qed.
End forward.



(** On that scenario, only the later of the two runs of site A contributes. *)
Example get_latest_forecast_by_sites_two_runs :
  _get_latest_forecast_by_sites canonical_uuid two_runs [uuid_A] (Some T0)
    world0
  = (Ok [(run_b, value_b)], record_statement SelectLatestForecastBySites world0).
Proof. by vm_compute. Qed.

(** ** The merge *)

Section merge.
Variables (uuid_UUID uuid_in : string → option UUID).
Variables (Forecast OneDatetimeManyForecasts : Type).
Variable forecast_rows_to_pydantic : list Row → list Forecast.
Variable forecast_rows_to_pydantic_compact :
  list Row → list OneDatetimeManyForecasts.
Variables (session : Session) (site_uuids : list string).
Variables (start_utc : datetime) (horizon_minutes : Z) (compact : bool).

Lemma get_forecasts_by_sites_unfold w :
  get_forecasts_by_sites uuid_UUID uuid_in forecast_rows_to_pydantic
    forecast_rows_to_pydantic_compact session site_uuids start_utc
    horizon_minutes compact w
  = match _get_forecasts_for_horizon uuid_in session site_uuids start_utc
            (utcnow w) horizon_minutes w with
    | (Raise e, w1) => (Raise e, w1)
    | (Ok rows_past, w1) =>
        match _get_latest_forecast_by_sites uuid_UUID session site_uuids
                (Some start_utc) w1 with
        | (Raise e, w2) => (Raise e, w2)
        | (Ok rows_future, w2) =>
            (Ok (if compact
                 then inr (forecast_rows_to_pydantic_compact
                             (rows_past ++ rows_future))
                 else inl (forecast_rows_to_pydantic
                             (rows_past ++ rows_future))), w2)
        end
    end.
Proof.
  unfold get_forecasts_by_sites.
  unfold mbind at 1. unfold M_bind at 1. unfold datetime_utcnow.
  unfold mbind at 1. unfold M_bind at 1.
  destruct (_get_forecasts_for_horizon _ _ _ _ _ _ w) as [[rows_past|e] w1];
    [|done].
  unfold mbind at 1. unfold M_bind at 1.
  destruct (_get_latest_forecast_by_sites _ _ _ _ w1)
    as [[rows_future|e] w2]; [|done].
  by destruct compact.
Qed.

(** What the historical query answers does not depend on the statements
    sent before, and it leaves the clock alone. *)
Lemma get_forecasts_for_horizon_world end_utc :
  ∃ r (sent : bool),
    ∀ w, _get_forecasts_for_horizon uuid_in session site_uuids start_utc
           end_utc horizon_minutes w
         = (r, if sent then record_statement SelectForecastsForHorizon w
               else w).
Proof.
  unfold _get_forecasts_for_horizon, mbind, M_bind, lift, session_execute.
  destruct (timedelta_minutes horizon_minutes) as [delta|e];
    [|by exists (Raise e), false].
  destruct (datetime_sub start_utc delta) as [lower|e];
    [|by exists (Raise e), false].
  by eexists _, true.
Qed.

End merge.

Lemma utcnow_record_statement stmt w : utcnow (record_statement stmt w) = utcnow w.
Proof. done. Qed.

(** C6: [get_forecasts_by_sites] reads the clock, runs the historical query
    up to that time and then the latest-forecast query, and returns the
    requested reshape of the historical rows followed by the forward rows;
    the concatenation is handed to the converter as it is. When either query
    raises, so does the whole request. *)
Theorem get_forecasts_by_sites_concatenates
    uuid_UUID uuid_in (Forecast OneDatetimeManyForecasts : Type)
    (forecast_rows_to_pydantic : list Row → list Forecast)
    (forecast_rows_to_pydantic_compact : list Row → list OneDatetimeManyForecasts)
    session site_uuids start_utc horizon_minutes compact w :
  get_forecasts_by_sites uuid_UUID uuid_in forecast_rows_to_pydantic
    forecast_rows_to_pydantic_compact session site_uuids start_utc
    horizon_minutes compact w
  = match _get_forecasts_for_horizon uuid_in session site_uuids start_utc
            (utcnow w) horizon_minutes w with
    | (Raise e, w1) => (Raise e, w1)
    | (Ok rows_past, w1) =>
        match _get_latest_forecast_by_sites uuid_UUID session site_uuids
                (Some start_utc) w1 with
        | (Raise e, w2) => (Raise e, w2)
        | (Ok rows_future, w2) =>
            (Ok (if compact
                 then inr (forecast_rows_to_pydantic_compact
                             (rows_past ++ rows_future))
                 else inl (forecast_rows_to_pydantic
                             (rows_past ++ rows_future))), w2)
        end
    end.
Proof.
  unfold get_forecasts_by_sites.
  unfold mbind at 1. unfold M_bind at 1. unfold datetime_utcnow.
  unfold mbind at 1. unfold M_bind at 1.
  destruct (_get_forecasts_for_horizon uuid_in session site_uuids start_utc
              (utcnow w) horizon_minutes w) as [[rows_past|e] w1]; [|done].
  unfold mbind at 1. unfold M_bind at 1.
  destruct (_get_latest_forecast_by_sites uuid_UUID session site_uuids
              (Some start_utc) w1) as [[rows_future|e] w2]; [|done].
  by destruct compact.
Qed.

(** No deduplication across the two sets: a pair that is in both slices is
    handed to the converter twice, the historical occurrence first. *)
Example get_forecasts_by_sites_keeps_both_occurrences :
  get_forecasts_by_sites canonical_uuid canonical_uuid id id one_run [uuid_A]
    T0 30 false {| utcnow := T0 + minutes 60; executed := [] |}
  = (Ok (inl [(run_a, value_a); (run_a, value_a)]),
     {| utcnow := T0 + minutes 60;
        executed := [SelectForecastsForHorizon; SelectLatestForecastBySites] |}).
Proof. by vm_compute. Qed.

(** The scenario of the specification: the value issued at [T0] comes from
    the historical slice, the value of the later run from the forward slice,
    in that order. *)
Example get_forecasts_by_sites_scenario :
  get_forecasts_by_sites canonical_uuid canonical_uuid id id two_runs [uuid_A]
    T0 30 false {| utcnow := T0 + minutes 180; executed := [] |}
  = (Ok (inl [(run_a, value_a); (run_b, value_b)]),
     {| utcnow := T0 + minutes 180;
        executed := [SelectForecastsForHorizon; SelectLatestForecastBySites] |}).
Proof. by vm_compute. Qed.




(** ** Malformed identifiers *)

Lemma list_comp_py_uuid_malformed uuid_UUID site_uuids su :
  su ∈ site_uuids → uuid_UUID su = None →
  list_comp (py_uuid uuid_UUID) site_uuids
  = Raise ValueError.
Proof.
  intros Hin Hsu. induction site_uuids as [|y l IH].
  { by apply elem_of_nil in Hin. }
  cbn [list_comp]. unfold py_uuid at 1.
  destruct (uuid_UUID y) as [u|] eqn:Hy; [|done].
  apply elem_of_cons in Hin as [->|Hin]; [congruence|].
  by rewrite IH.
Qed.

(** C9, as amended: when a requested identifier does not parse as a UUID,
    [_get_latest_forecast_by_sites] and [get_generation_by_sites] raise
    [ValueError] before anything is sent to the storage engine;
    [get_forecasts_by_sites] raises too and never sends the latest-forecast
    query, the only statement it may have sent being the historical query,
    which takes the identifiers unparsed. *)
Theorem malformed_site_uuid_raises
    uuid_UUID uuid_in get_pv_generation_by_sites
    (Forecast OneDatetimeManyForecasts : Type)
    (forecast_rows_to_pydantic : list Row → list Forecast)
    (forecast_rows_to_pydantic_compact : list Row → list OneDatetimeManyForecasts)
    session site_uuids su start_utc lower_bound horizon_minutes compact w :
  su ∈ site_uuids → uuid_UUID su = None →
  _get_latest_forecast_by_sites uuid_UUID session site_uuids lower_bound w
  = (Raise ValueError, w)
  ∧ get_generation_by_sites uuid_UUID get_pv_generation_by_sites session
      site_uuids start_utc compact w
    = (Raise ValueError, w)
  ∧ ∃ e w',
      get_forecasts_by_sites uuid_UUID uuid_in forecast_rows_to_pydantic
        forecast_rows_to_pydantic_compact session site_uuids start_utc
        horizon_minutes compact w
      = (Raise e, w')
      ∧ (w' = w ∨ w' = record_statement SelectForecastsForHorizon w).
Proof.
  intros Hin Hsu.
  pose proof (list_comp_py_uuid_malformed _ _ _ Hin Hsu) as Hparse.
  assert (∀ lower_bound w,
            _get_latest_forecast_by_sites uuid_UUID session site_uuids
              lower_bound w
            = (Raise ValueError, w))
    as Hlatest.
  { intros lb w0. unfold _get_latest_forecast_by_sites.
    apply bind_Raise. unfold lift. by rewrite Hparse. }
  split_and!.
  - apply Hlatest.
  - unfold get_generation_by_sites. apply bind_Raise. unfold lift.
    by rewrite Hparse.
  - rewrite get_forecasts_by_sites_unfold.
    destruct (get_forecasts_for_horizon_world uuid_in session site_uuids
                start_utc horizon_minutes (utcnow w)) as (r & sent & ->).
    destruct r as [rows_past|e].
    + rewrite Hlatest. eexists _, _. split; [done|]. destruct sent; auto.
    + eexists _, _. split; [done|]. destruct sent; auto.
Qed.

(** C9 fails on the code: on a request with a malformed identifier,
    [get_forecasts_by_sites] has sent the historical query to the storage
    engine by the time it fails, whether the engine rejects the string or
    binds it. *)
Lemma get_forecasts_by_sites_queries_before_failing :
  canonical_uuid "not-a-uuid" = None
  ∧ get_forecasts_by_sites canonical_uuid canonical_uuid id id two_runs
      [uuid_A; "not-a-uuid"] T0 30 false world0
    = (Raise DBAPIError,
       {| utcnow := utcnow world0; executed := [SelectForecastsForHorizon] |})
  ∧ get_forecasts_by_sites canonical_uuid lenient_uuid_in id id two_runs
      [uuid_A; "not-a-uuid"] T0 30 false world0
    = (Raise ValueError,
       {| utcnow := utcnow world0; executed := [SelectForecastsForHorizon] |}).
Proof. split_and!; by vm_compute. Qed.

(** C9 as amended, on a request with a malformed identifier. *)
Lemma malformed_site_uuid_raises_witness :
  _get_latest_forecast_by_sites canonical_uuid two_runs
    [uuid_A; "not-a-uuid"] (Some T0) world0
  = (Raise ValueError, world0)
  ∧ get_generation_by_sites canonical_uuid (select_generation generation_table)
      two_runs [uuid_A; "not-a-uuid"] T0 false world0
    = (Raise ValueError, world0)
  ∧ ∃ e w',
      get_forecasts_by_sites canonical_uuid canonical_uuid id id two_runs
        [uuid_A; "not-a-uuid"] T0 30 false world0
      = (Raise e, w')
      ∧ (w' = world0 ∨ w' = record_statement SelectForecastsForHorizon world0).
Proof.
  apply (malformed_site_uuid_raises canonical_uuid canonical_uuid
           (select_generation generation_table) Row Row id id two_runs
           [uuid_A; "not-a-uuid"] "not-a-uuid" T0 (Some T0) 30 false world0).
  - apply (bool_decide_unpack _). vm_compute. exact I.
  - reflexivity.
Defined.

(** ** The generation reshape *)

Section dict_facts.
Context {K V : Type} `{EqDecision K}.

(** Appending to an entry adds one pair and keeps the others. *)
Lemma dict_entries_append k v (d : list (K * list V)) :
  dict_entries (dict_append k v d) ≡ₚ dict_entries d ++ [(k, v)].
Proof.
  induction d as [|[k' vs] d IH]; [done|].
  cbn [dict_append]. destruct (decide (k = k')) as [->|Hne].
  - unfold dict_entries. rewrite !bind_cons. cbn [fst snd].
    rewrite fmap_app. cbn [fmap list_fmap].
    rewrite <-!(assoc_L (++)). apply Permutation_app_head, Permutation_app_comm.
  - unfold dict_entries in *. rewrite !bind_cons, IH.
    by rewrite (assoc_L (++)).
Qed.

Lemma dict_entries_foldl {R} (kf : R → K) (vf : R → V) (rows : list R) d :
  dict_entries (foldl (λ d row, dict_append (kf row) (vf row) d) d rows)
  ≡ₚ dict_entries d ++ ((λ row, (kf row, vf row)) <$> rows).
Proof.
  revert d. induction rows as [|row rows IH]; intros d.
  { cbn [foldl fmap list_fmap]. by rewrite app_nil_r. }
  cbn [foldl]. rewrite IH, dict_entries_append, fmap_cons.
  by rewrite <-(assoc_L (++)).
Qed.
End dict_facts.

Lemma readings_per_site_entries (d : list (string * list PVActualValue.t)) :
  readings_per_site ((λ kv, MultiplePVActual.mk kv.1 kv.2) <$> d)
  = (λ kv : string * PVActualValue.t,
       (kv.1, PVActualValue.datetime_utc kv.2,
        PVActualValue.actual_generation_kw kv.2)) <$> dict_entries d.
Proof.
  unfold readings_per_site, dict_entries.
  induction d as [|[k vs] d IH]; [done|].
  rewrite fmap_cons, !bind_cons, fmap_app, IH. f_equal.
  cbn [fst snd MultiplePVActual.site_uuid MultiplePVActual.pv_actual_values].
  by rewrite <-list_fmap_compose.
Qed.

Lemma readings_per_datetime_entries (d : list (datetime * list (string * float64))) :
  readings_per_datetime ((λ kv, PVActualValueBySite.mk kv.1 kv.2) <$> d)
  = (λ kv : datetime * (string * float64), (kv.2.1, kv.1, kv.2.2))
      <$> dict_entries d.
Proof.
  unfold readings_per_datetime, dict_entries.
  induction d as [|[k vs] d IH]; [done|].
  rewrite fmap_cons, !bind_cons, fmap_app, IH. f_equal.
  cbn [fst snd PVActualValueBySite.datetime_utc
         PVActualValueBySite.generation_kw_by_location].
  by rewrite <-list_fmap_compose.
Qed.

Lemma generation_rows_to_pydantic_readings rows site_uuids :
  readings_per_site (generation_rows_to_pydantic [] rows site_uuids)
  ≡ₚ reading_of_row <$> rows.
Proof.
  unfold generation_rows_to_pydantic.
  rewrite readings_per_site_entries, dict_entries_foldl.
  cbn [dict_entries mbind list_bind app]. by rewrite <-list_fmap_compose.
Qed.

Lemma generation_rows_to_pydantic_compact_readings rows :
  readings_per_datetime (generation_rows_to_pydantic_compact rows)
  ≡ₚ reading_of_row <$> rows.
Proof.
  unfold generation_rows_to_pydantic_compact.
  rewrite readings_per_datetime_entries, dict_entries_foldl.
  cbn [dict_entries mbind list_bind app]. by rewrite <-list_fmap_compose.
Qed.

(** C7: when the identifiers parse and the fetch returns a non-empty list of
    readings, [get_generation_by_sites] returns, for [compact=False], a
    per-site output and, for [compact=True], a per-timestamp output, and the
    readings each of them holds are the fetched readings, each as many times
    as it was fetched: none is dropped and none is duplicated. *)
Theorem get_generation_by_sites_every_reading_once
    uuid_UUID get_pv_generation_by_sites session site_uuids uuids start_utc
    rows w w' :
  Forall2 (λ su u, uuid_UUID su = Some u) site_uuids uuids →
  get_pv_generation_by_sites session start_utc uuids w = (Ok rows, w') →
  rows ≠ [] →
  ∃ per_site per_datetime,
    get_generation_by_sites uuid_UUID get_pv_generation_by_sites session
      site_uuids start_utc false w
    = (Ok (inl per_site), w')
    ∧ get_generation_by_sites uuid_UUID get_pv_generation_by_sites session
        site_uuids start_utc true w
      = (Ok (inr per_datetime), w')
    ∧ readings_per_site per_site ≡ₚ reading_of_row <$> rows
    ∧ readings_per_datetime per_datetime ≡ₚ reading_of_row <$> rows.
Proof.
  intros Hall Hfetch _.
  exists (generation_rows_to_pydantic [] rows site_uuids),
         (generation_rows_to_pydantic_compact rows).
  assert (∀ compact,
            get_generation_by_sites uuid_UUID get_pv_generation_by_sites
              session site_uuids start_utc compact w
            = (Ok (if negb compact
                   then inl (generation_rows_to_pydantic [] rows site_uuids)
                   else inr (generation_rows_to_pydantic_compact rows)), w'))
    as Hrun.
  { intros compact. unfold get_generation_by_sites.
    erewrite bind_Ok by (unfold lift; by rewrite (py_uuid_Forall2 _ _ _ Hall)).
    erewrite bind_Ok by exact Hfetch.
    by destruct compact. }
  split_and!.
  - apply (Hrun false).
  - apply (Hrun true).
  - apply generation_rows_to_pydantic_readings.
  - apply generation_rows_to_pydantic_compact_readings.
Qed.

(** C7 on a table of four readings, two of them equal. *)
Lemma get_generation_by_sites_every_reading_once_witness :
  ∃ per_site per_datetime,
    get_generation_by_sites canonical_uuid (select_generation generation_table)
      empty_session [uuid_A; uuid_B] T0 false world0
    = (Ok (inl per_site), world0)
    ∧ get_generation_by_sites canonical_uuid
        (select_generation generation_table) empty_session [uuid_A; uuid_B] T0
        true world0
      = (Ok (inr per_datetime), world0)
    ∧ readings_per_site per_site ≡ₚ reading_of_row <$> generation_table
    ∧ readings_per_datetime per_datetime ≡ₚ reading_of_row <$> generation_table.
Proof.
  apply (get_generation_by_sites_every_reading_once canonical_uuid
           (select_generation generation_table) empty_session
           [uuid_A; uuid_B] [10%N; 11%N] T0 generation_table world0 world0).
  - repeat constructor.
  - by vm_compute.
  - discriminate.
Defined.

(** The two outputs on that table. *)
Example get_generation_by_sites_per_site :
  (get_generation_by_sites canonical_uuid (select_generation generation_table)
     empty_session [uuid_A; uuid_B] T0 false world0).1
  = Ok (inl [ MultiplePVActual.mk uuid_A
                [ PVActualValue.mk 63000000000000000 500;
                  PVActualValue.mk 63000000300000000 510;
                  PVActualValue.mk 63000000300000000 510 ];
              MultiplePVActual.mk uuid_B
                [ PVActualValue.mk 63000000000000000 700 ] ]).
Proof. by vm_compute. Qed.

Example get_generation_by_sites_compact :
  (get_generation_by_sites canonical_uuid (select_generation generation_table)
     empty_session [uuid_A; uuid_B] T0 true world0).1
  = Ok (inr [ PVActualValueBySite.mk 63000000000000000
                [ (uuid_A, 500); (uuid_B, 700) ];
              PVActualValueBySite.mk 63000000300000000
                [ (uuid_A, 510); (uuid_A, 510) ] ]).
Proof. by vm_compute. Qed.

(** * Further properties of the helpers *)

(** ** Order of the historical slice *)

Lemma distinct_on_sublist {A K} `{EqDecision K} (key : A → K) seen rows :
  distinct_on key seen rows `sublist_of` rows.
Proof.
  revert seen. induction rows as [|a rows IH]; intros seen; [constructor|].
  cbn [distinct_on]. case_bool_decide.
  - apply sublist_cons, IH.
  - apply sublist_skip, IH.
Qed.

Lemma ordered_sublist {A} (le : A → A → bool) l1 l2 :
  l1 `sublist_of` l2 → ordered le l2 → ordered le l1.
Proof.
  induction 1 as [|x l1 l2 Hsub IH|x l1 l2 Hsub IH]; [done| |].
  - intros [Hx Hord]. split; [|by apply IH].
    intros y Hy. apply Hx. by eapply elem_of_sublist.
  - intros [_ Hord]. by apply IH.
Qed.

Lemma ordered_lookup {A} (le : A → A → bool) l (i j : nat) x y :
  ordered le l → (i < j)%nat → l !! i = Some x → l !! j = Some y →
  le x y = true.
Proof.
  revert i j. induction l as [|a l IH]; intros i j Hord Hij Hi Hj; [done|].
  destruct Hord as [Ha Hord]. destruct j as [|j]; [lia|].
  destruct i as [|i].
  - injection Hi as ->. apply Ha. by eapply list_elem_of_lookup_2.
  - apply (IH i j); [done|lia|done..].
Qed.

Lemma by_site_timestamp_total f1 f2 :
  by_site_timestamp f1 f2 = true ∨ by_site_timestamp f2 f1 = true.
Proof. unfold by_site_timestamp. rewrite !bool_decide_eq_true. lia. Qed.

Lemma by_site_timestamp_trans f1 f2 f3 :
  by_site_timestamp f1 f2 = true → by_site_timestamp f2 f3 = true →
  by_site_timestamp f1 f3 = true.
Proof. unfold by_site_timestamp. rewrite !bool_decide_eq_true. lia. Qed.

(** X1: the rows of the historical query come in strictly ascending order of
    (site_uuid, timestamp_utc): by site, and for one site by issuance time,
    with no key twice. *)
Theorem get_forecasts_for_horizon_ascending
    uuid_in session site_uuids uuids start_utc end_utc horizon_minutes w :
  Forall2 (λ su u, uuid_in su = Some u) site_uuids uuids →
  datetime_valid start_utc →
  datetime_valid (start_utc - horizon_minutes * 60000000) →
  ∃ rows,
    _get_forecasts_for_horizon uuid_in session site_uuids start_utc end_utc
      horizon_minutes w
    = (Ok rows, record_statement SelectForecastsForHorizon w)
    ∧ ∀ (i j : nat) r1 r2,
        (i < j)%nat → rows !! i = Some r1 → rows !! j = Some r2 →
        run_key_lt r1.1 r2.1.
Proof.
  intros Hbound Hstart Hlower. eexists. split.
  { by apply get_forecasts_for_horizon_rows with (uuids := uuids). }
  set (cands := horizon_candidates session uuids start_utc end_utc
                  horizon_minutes).
  set (le := λ r1 r2 : Row, by_site_timestamp r1.1 r2.1).
  intros i j r1 r2 Hij Hi Hj.
  assert (le r1 r2 = true) as Hle.
  { apply (ordered_lookup le
             (distinct_on (λ r : Row, run_key r.1) [] (sorted le cands)) i j);
      [|done..].
    eapply ordered_sublist; [apply distinct_on_sublist|].
    apply sorted_ordered.
    - intros x y. apply by_site_timestamp_total.
    - intros x y z. apply by_site_timestamp_trans. }
  assert (run_key r1.1 ≠ run_key r2.1) as Hne.
  { intros Hkey.
    pose proof (distinct_on_NoDup (λ r : Row, run_key r.1) [] (sorted le cands))
      as Hnd.
    assert (i = j); [|lia].
    apply (NoDup_lookup _ i j (run_key r1.1) Hnd).
    - rewrite list_lookup_fmap.
      exact (f_equal (fmap (λ r : Row, run_key r.1)) Hi).
    - rewrite list_lookup_fmap, Hkey.
      exact (f_equal (fmap (λ r : Row, run_key r.1)) Hj). }
  unfold le, by_site_timestamp in Hle. apply bool_decide_eq_true in Hle.
  unfold run_key_lt. unfold run_key in Hne.
  destruct Hle as [Hlt|[Hs Ht]]; [by left|right].
  split; [done|].
  destruct (decide (ForecastSQL.timestamp_utc r1.1
                    = ForecastSQL.timestamp_utc r2.1)) as [Heq|]; [|lia].
  exfalso. apply Hne. by rewrite Hs, Heq.
Qed.

(** X1 on the scenario of the specification. *)
Lemma get_forecasts_for_horizon_ascending_witness :
  ∃ rows,
    _get_forecasts_for_horizon canonical_uuid two_runs [uuid_A] T0
      (T0 + minutes 180) 30 world0
    = (Ok rows, record_statement SelectForecastsForHorizon world0)
    ∧ ∀ (i j : nat) r1 r2,
        (i < j)%nat → rows !! i = Some r1 → rows !! j = Some r2 →
        run_key_lt r1.1 r2.1.
Proof.
  apply (get_forecasts_for_horizon_ascending canonical_uuid two_runs [uuid_A]
           [10%N] T0 (T0 + minutes 180) 30 world0).
  - repeat constructor.
  - vm_compute. split; discriminate.
  - vm_compute. split; discriminate.
Defined.

(** ** The window of the historical slice *)

(** X2: when [start_utc - horizon_minutes] minutes is not a date Python can
    represent, the historical query raises [OverflowError] while the
    statement is built: nothing is sent, and [get_forecasts_by_sites] fails
    the same way without running either query. *)
Theorem horizon_lower_bound_overflow
    uuid_UUID uuid_in (Forecast OneDatetimeManyForecasts : Type)
    (forecast_rows_to_pydantic : list Row → list Forecast)
    (forecast_rows_to_pydantic_compact : list Row → list OneDatetimeManyForecasts)
    session site_uuids start_utc end_utc horizon_minutes compact w :
  ¬ datetime_valid (start_utc - horizon_minutes * 60000000) →
  _get_forecasts_for_horizon uuid_in session site_uuids start_utc end_utc
    horizon_minutes w
  = (Raise OverflowError, w)
  ∧ get_forecasts_by_sites uuid_UUID uuid_in forecast_rows_to_pydantic
      forecast_rows_to_pydantic_compact session site_uuids start_utc
      horizon_minutes compact w
    = (Raise OverflowError, w).
Proof.
  intros Hlower.
  assert (∀ end_utc,
            _get_forecasts_for_horizon uuid_in session site_uuids start_utc
              end_utc horizon_minutes w
            = (Raise OverflowError, w)) as Hpast.
  { intros e. unfold _get_forecasts_for_horizon, mbind, M_bind, lift.
    unfold timedelta_minutes. case_bool_decide; [|done].
    unfold datetime_sub. by rewrite bool_decide_eq_false_2. }
  split; [apply Hpast|].
  by rewrite get_forecasts_by_sites_unfold, Hpast.
Qed.

(** X2 for a horizon of ten thousand years. *)
Lemma horizon_lower_bound_overflow_witness :
  _get_forecasts_for_horizon canonical_uuid two_runs [uuid_A] T0
    (T0 + minutes 180) 5259600000 world0
  = (Raise OverflowError, world0)
  ∧ get_forecasts_by_sites canonical_uuid canonical_uuid id id two_runs
      [uuid_A] T0 5259600000 false world0
    = (Raise OverflowError, world0).
Proof.
  apply (horizon_lower_bound_overflow canonical_uuid canonical_uuid Row Row
           id id two_runs [uuid_A] T0 (T0 + minutes 180) 5259600000 false
           world0).
  vm_compute. intros [H _]. by apply H.
Defined.

(** ** The requested identifiers as a set *)

Section list_comp_option.
Context {A B : Type} (g : A → option B) (e0 : Exception) (f : A → result B).
Hypothesis f_spec :
  ∀ s, f s = match g s with Some u => Ok u | None => Raise e0 end.

Lemma list_comp_cases l :
  (∃ us, list_comp f l = Ok us ∧ Forall2 (λ s u, g s = Some u) l us)
  ∨ (list_comp f l = Raise e0 ∧ ∃ s, s ∈ l ∧ g s = None).
Proof.
  induction l as [|x l IH].
  { left. exists []. by split; [|constructor]. }
  cbn [list_comp]. rewrite f_spec. destruct (g x) as [u|] eqn:Hx.
  - destruct IH as [(us & -> & Hall)|(-> & s & Hs & Hnone)].
    + left. exists (u :: us). split; [done|by constructor].
    + right. split; [done|]. exists s. split; [by right|done].
  - right. split; [done|]. exists x. split; [by left|done].
Qed.

Lemma Forall2_Some_elem_of l us u :
  Forall2 (λ s u, g s = Some u) l us →
  u ∈ us ↔ ∃ s, s ∈ l ∧ g s = Some u.
Proof.
  induction 1 as [|s u' l us Hs _ IH].
  { split; [by intros ?%elem_of_nil|by intros (? & ?%elem_of_nil & _)]. }
  rewrite elem_of_cons, IH. split.
  - intros [->|(s' & Hs' & Hg)]; [exists s|exists s'];
      (split; [|done]); [by left|by right].
  - intros (s' & [->|Hs']%elem_of_cons & Hg).
    + left. congruence.
    + right. by exists s'.
Qed.

Lemma Forall2_Some_defined l us s :
  Forall2 (λ s u, g s = Some u) l us → s ∈ l → is_Some (g s).
Proof.
  induction 1 as [|s' u l us Hs _ IH]; [by intros ?%elem_of_nil|].
  intros [->|Hin]%elem_of_cons; [by eexists|by apply IH].
Qed.

(** Two lists with the same elements convert alike: to lists with the same
    elements, or to the same exception. *)
Lemma list_comp_same_elements l1 l2 :
  (∀ s, s ∈ l1 ↔ s ∈ l2) →
  (∃ us1 us2, list_comp f l1 = Ok us1 ∧ list_comp f l2 = Ok us2
              ∧ ∀ u, u ∈ us1 ↔ u ∈ us2)
  ∨ (list_comp f l1 = Raise e0 ∧ list_comp f l2 = Raise e0).
Proof.
  intros Hsame.
  destruct (list_comp_cases l1) as [(us1 & H1 & Hall1)|(H1 & s & Hs & Hnone)],
           (list_comp_cases l2) as [(us2 & H2 & Hall2)|(H2 & s' & Hs' & Hnone')].
  - left. exists us1, us2. split_and!; [done..|]. intros u.
    rewrite (Forall2_Some_elem_of _ _ _ Hall1),
      (Forall2_Some_elem_of _ _ _ Hall2).
    by setoid_rewrite Hsame.
  - apply Hsame in Hs'.
    destruct (Forall2_Some_defined _ _ _ Hall1 Hs') as [? ?]. congruence.
  - apply Hsame in Hs.
    destruct (Forall2_Some_defined _ _ _ Hall2 Hs) as [? ?]. congruence.
  - by right.
Qed.
End list_comp_option.

Lemma get_forecasts_for_horizon_same_elements
    uuid_in session site_uuids1 site_uuids2 start_utc end_utc horizon_minutes w :
  (∀ su, su ∈ site_uuids1 ↔ su ∈ site_uuids2) →
  _get_forecasts_for_horizon uuid_in session site_uuids1 start_utc end_utc
    horizon_minutes w
  = _get_forecasts_for_horizon uuid_in session site_uuids2 start_utc end_utc
      horizon_minutes w.
Proof.
  intros Hsame. unfold _get_forecasts_for_horizon, mbind, M_bind, lift.
  destruct (timedelta_minutes horizon_minutes) as [delta|e]; [|done].
  destruct (datetime_sub start_utc delta) as [lower|e]; [|done].
  unfold session_execute. f_equal.
  destruct (list_comp_same_elements uuid_in DBAPIError (bind_uuid uuid_in)
              (λ _, eq_refl) _ _ Hsame)
    as [(us1 & us2 & -> & -> & Hus)|[-> ->]]; [|done].
  do 3 f_equal. apply list_filter_iff. intros r. by rewrite Hus.
Qed.

Lemma get_latest_forecast_by_sites_same_elements
    uuid_UUID session site_uuids1 site_uuids2 start_utc w :
  (∀ su, su ∈ site_uuids1 ↔ su ∈ site_uuids2) →
  _get_latest_forecast_by_sites uuid_UUID session site_uuids1 start_utc w
  = _get_latest_forecast_by_sites uuid_UUID session site_uuids2 start_utc w.
Proof.
  intros Hsame. unfold _get_latest_forecast_by_sites, mbind, M_bind, lift.
  destruct (list_comp_same_elements uuid_UUID ValueError (py_uuid uuid_UUID)
              (λ _, eq_refl) _ _ Hsame)
    as [(us1 & us2 & -> & -> & Hus)|[-> ->]]; [|done].
  assert (filter (λ f, ForecastSQL.site_uuid f ∈ us1) (forecasts session)
          = filter (λ f, ForecastSQL.site_uuid f ∈ us2) (forecasts session))
    as ->; [|done].
  apply list_filter_iff. intros r. by rewrite Hus.
Qed.

(** X3: the forecast helpers take the requested identifiers as a set. Two
    requests that list the same identifiers, in any order and any number of
    times, give the same result, the same exception when one is raised, and
    send the same statements; this holds for each of the two queries and for
    [get_forecasts_by_sites]. *)
Theorem get_forecasts_by_sites_same_elements
    uuid_UUID uuid_in (Forecast OneDatetimeManyForecasts : Type)
    (forecast_rows_to_pydantic : list Row → list Forecast)
    (forecast_rows_to_pydantic_compact : list Row → list OneDatetimeManyForecasts)
    session site_uuids1 site_uuids2 start_utc end_utc lower_bound
    horizon_minutes compact w :
  (∀ su, su ∈ site_uuids1 ↔ su ∈ site_uuids2) →
  _get_forecasts_for_horizon uuid_in session site_uuids1 start_utc end_utc
    horizon_minutes w
  = _get_forecasts_for_horizon uuid_in session site_uuids2 start_utc end_utc
      horizon_minutes w
  ∧ _get_latest_forecast_by_sites uuid_UUID session site_uuids1 lower_bound w
    = _get_latest_forecast_by_sites uuid_UUID session site_uuids2 lower_bound w
  ∧ get_forecasts_by_sites uuid_UUID uuid_in forecast_rows_to_pydantic
      forecast_rows_to_pydantic_compact session site_uuids1 start_utc
      horizon_minutes compact w
    = get_forecasts_by_sites uuid_UUID uuid_in forecast_rows_to_pydantic
        forecast_rows_to_pydantic_compact session site_uuids2 start_utc
        horizon_minutes compact w.
Proof.
  intros Hsame. split_and!.
  - by apply get_forecasts_for_horizon_same_elements.
  - by apply get_latest_forecast_by_sites_same_elements.
  - rewrite !get_forecasts_by_sites_unfold.
    rewrite (get_forecasts_for_horizon_same_elements _ _ _ _ _ _ _ _ Hsame).
    destruct (_get_forecasts_for_horizon _ _ site_uuids2 _ _ _ _)
      as [[rows_past|e] w1]; [|done].
    by rewrite (get_latest_forecast_by_sites_same_elements _ _ _ _ _ _ Hsame).
Qed.

(** X3 for a request that repeats and reorders its identifiers. *)
Lemma get_forecasts_by_sites_same_elements_witness :
  _get_forecasts_for_horizon canonical_uuid two_runs [uuid_B; uuid_A; uuid_B]
    T0 (T0 + minutes 180) 30 world0
  = _get_forecasts_for_horizon canonical_uuid two_runs [uuid_A; uuid_B]
      T0 (T0 + minutes 180) 30 world0
  ∧ _get_latest_forecast_by_sites canonical_uuid two_runs
      [uuid_B; uuid_A; uuid_B] (Some T0) world0
    = _get_latest_forecast_by_sites canonical_uuid two_runs [uuid_A; uuid_B]
        (Some T0) world0
  ∧ get_forecasts_by_sites canonical_uuid canonical_uuid id id two_runs
      [uuid_B; uuid_A; uuid_B] T0 30 false world0
    = get_forecasts_by_sites canonical_uuid canonical_uuid id id two_runs
        [uuid_A; uuid_B] T0 30 false world0.
Proof.
  apply (get_forecasts_by_sites_same_elements canonical_uuid canonical_uuid
           Row Row id id two_runs [uuid_B; uuid_A; uuid_B] [uuid_A; uuid_B]
           T0 (T0 + minutes 180) (Some T0) 30 false world0).
  intros su. rewrite !elem_of_cons, !elem_of_nil. tauto.
Defined.

(** ** The filter on the issuance time *)

(** X4: for a horizon that is not negative and stored values that target the
    issuance time of their run plus their horizon, the two conditions on the
    issuance time exclude nothing: every stored pair of a requested site
    whose value has the requested horizon and a target time in
    [[start_utc, end_utc)] is represented in the rows of the historical
    query. *)
Theorem get_forecasts_for_horizon_timestamp_filter
    uuid_in session site_uuids uuids start_utc end_utc horizon_minutes w :
  Forall2 (λ su u, uuid_in su = Some u) site_uuids uuids →
  datetime_valid start_utc →
  datetime_valid (start_utc - horizon_minutes * 60000000) →
  0 ≤ horizon_minutes →
  ∃ rows,
    _get_forecasts_for_horizon uuid_in session site_uuids start_utc end_utc
      horizon_minutes w
    = (Ok rows, record_statement SelectForecastsForHorizon w)
    ∧ ∀ r, stored_pair session r → consistent_pair r →
           ForecastSQL.site_uuid r.1 ∈ uuids →
           ForecastValueSQL.horizon_minutes r.2 = horizon_minutes →
           start_utc ≤ ForecastValueSQL.start_utc r.2 < end_utc →
           ∃ r', r' ∈ rows ∧ run_key r'.1 = run_key r.1.
Proof.
  intros Hbound Hstart Hlower Hpos. eexists. split.
  { by apply get_forecasts_for_horizon_rows with (uuids := uuids). }
  intros r Hstored Hcons Hsite Hhor Hwin.
  apply (distinct_on_complete (λ r : Row, run_key r.1) []);
    [|apply not_elem_of_nil].
  apply elem_of_sorted, elem_of_horizon_candidates. split; [done|].
  unfold in_horizon_window. unfold consistent_pair in Hcons.
  rewrite Hhor in Hcons. split_and!; [done|done|lia|lia|lia|lia].
Qed.

(** X4 on the scenario of the specification. *)
Lemma get_forecasts_for_horizon_timestamp_filter_witness :
  ∃ rows,
    _get_forecasts_for_horizon canonical_uuid two_runs [uuid_A] T0
      (T0 + minutes 180) 30 world0
    = (Ok rows, record_statement SelectForecastsForHorizon world0)
    ∧ ∀ r, stored_pair two_runs r → consistent_pair r →
           ForecastSQL.site_uuid r.1 ∈ [10%N] →
           ForecastValueSQL.horizon_minutes r.2 = 30 →
           T0 ≤ ForecastValueSQL.start_utc r.2 < T0 + minutes 180 →
           ∃ r', r' ∈ rows ∧ run_key r'.1 = run_key r.1.
Proof.
  apply (get_forecasts_for_horizon_timestamp_filter canonical_uuid two_runs
           [uuid_A] [10%N] T0 (T0 + minutes 180) 30 world0).
  - repeat constructor.
  - vm_compute. split; discriminate.
  - vm_compute. split; discriminate.
  - lia.
Defined.

(** ** The merged rows *)

Lemma filter_none {A} (P : A → Prop) `{!∀ x, Decision (P x)} (l : list A) :
  (∀ x, ¬ P x) → filter P l = [].
Proof.
  intros HP. induction l as [|a l IH]; [done|].
  by rewrite filter_cons_False.
Qed.

Section merged.
Variables (uuid_UUID uuid_in : string → option UUID).
Variables (Forecast OneDatetimeManyForecasts : Type).
Variable forecast_rows_to_pydantic : list Row → list Forecast.
Variable forecast_rows_to_pydantic_compact :
  list Row → list OneDatetimeManyForecasts.
Variables (session : Session) (site_uuids : list string).
Variables (bound_uuids parsed_uuids : list UUID).
Variables (start_utc : datetime) (horizon_minutes : Z) (compact : bool).
Hypothesis bound :
  Forall2 (λ su u, uuid_in su = Some u) site_uuids bound_uuids.
Hypothesis parsed :
  Forall2 (λ su u, uuid_UUID su = Some u) site_uuids parsed_uuids.
Hypothesis start_valid : datetime_valid start_utc.
Hypothesis lower_valid :
  datetime_valid (start_utc - horizon_minutes * 60000000).

(** When nothing raises, the two statements are sent in turn and the
    converter gets the historical rows followed by the forward rows. *)
Lemma get_forecasts_by_sites_rows w :
  get_forecasts_by_sites uuid_UUID uuid_in forecast_rows_to_pydantic
    forecast_rows_to_pydantic_compact session site_uuids start_utc
    horizon_minutes compact w
  = (let rows :=
       distinct_on (λ r : Row, run_key r.1) []
         (sorted (λ r1 r2 : Row, by_site_timestamp r1.1 r2.1)
            (horizon_candidates session bound_uuids start_utc (utcnow w)
               horizon_minutes))
       ++ filter (λ r : Row, from_start (Some start_utc) r.2)
            (join_forecast_values (latest_run_per_site session parsed_uuids)
               (forecast_values session)) in
     (Ok (if compact then inr (forecast_rows_to_pydantic_compact rows)
          else inl (forecast_rows_to_pydantic rows)),
      record_statement SelectLatestForecastBySites
        (record_statement SelectForecastsForHorizon w))).
Proof.
  rewrite get_forecasts_by_sites_unfold.
  rewrite (get_forecasts_for_horizon_rows uuid_in session site_uuids
             bound_uuids start_utc (utcnow w) horizon_minutes bound
             start_valid lower_valid).
  by rewrite (get_latest_forecast_by_sites_rows session parsed_uuids uuid_UUID
                site_uuids (Some start_utc) _ parsed).
Qed.
End merged.

(** X5: when nothing raises, [get_forecasts_by_sites] sends the historical
    statement and then the latest-forecast statement, leaves the clock as it
    is, and every row it hands to the converter is a stored (run, value) pair
    of a requested site whose value starts at or after [start_utc]. *)
Theorem get_forecasts_by_sites_rows_from_start
    uuid_UUID uuid_in (Forecast OneDatetimeManyForecasts : Type)
    (forecast_rows_to_pydantic : list Row → list Forecast)
    (forecast_rows_to_pydantic_compact : list Row → list OneDatetimeManyForecasts)
    session site_uuids bound_uuids parsed_uuids start_utc horizon_minutes
    compact w :
  Forall2 (λ su u, uuid_in su = Some u) site_uuids bound_uuids →
  Forall2 (λ su u, uuid_UUID su = Some u) site_uuids parsed_uuids →
  datetime_valid start_utc →
  datetime_valid (start_utc - horizon_minutes * 60000000) →
  ∃ rows w',
    get_forecasts_by_sites uuid_UUID uuid_in forecast_rows_to_pydantic
      forecast_rows_to_pydantic_compact session site_uuids start_utc
      horizon_minutes compact w
    = (Ok (if compact then inr (forecast_rows_to_pydantic_compact rows)
           else inl (forecast_rows_to_pydantic rows)), w')
    ∧ executed w'
      = executed w ++ [SelectForecastsForHorizon; SelectLatestForecastBySites]
    ∧ utcnow w' = utcnow w
    ∧ ∀ r, r ∈ rows →
           stored_pair session r
           ∧ start_utc ≤ ForecastValueSQL.start_utc r.2
           ∧ (ForecastSQL.site_uuid r.1 ∈ bound_uuids
              ∨ ForecastSQL.site_uuid r.1 ∈ parsed_uuids).
Proof.
  intros Hbound Hparsed Hstart Hlower. eexists _, _. split.
  { by apply get_forecasts_by_sites_rows
      with (bound_uuids := bound_uuids) (parsed_uuids := parsed_uuids). }
  split_and!.
  - cbn. by rewrite <-(assoc_L (++)).
  - done.
  - intros r [Hr|Hr]%elem_of_app.
    + apply historical_row_first, head_Some_elem_of in Hr.
      apply list_elem_of_filter in Hr as [_ Hr].
      apply elem_of_horizon_candidates in Hr as [Hstored Hwin].
      destruct Hwin as (Hsite & _ & [Hfrom _] & _). by split_and!; [..|left].
    + destruct r as [f v].
      apply list_elem_of_filter in Hr as [Hfrom Hr].
      apply elem_of_join_forecast_values in Hr as (Hf & Hv & Hfk).
      destruct (latest_run_per_site_elem _ _ _ Hf) as (Hsite & [Hin _] & _).
      by split_and!; [split_and!|..|right].
Qed.

(** X5 on the scenario of the specification. *)
Lemma get_forecasts_by_sites_rows_from_start_witness :
  ∃ rows w',
    get_forecasts_by_sites canonical_uuid canonical_uuid id id two_runs
      [uuid_A] T0 30 false {| utcnow := T0 + minutes 180; executed := [] |}
    = (Ok (inl rows), w')
    ∧ executed w' = [SelectForecastsForHorizon; SelectLatestForecastBySites]
    ∧ utcnow w' = T0 + minutes 180
    ∧ ∀ r, r ∈ rows →
           stored_pair two_runs r
           ∧ T0 ≤ ForecastValueSQL.start_utc r.2
           ∧ (ForecastSQL.site_uuid r.1 ∈ [10%N]
              ∨ ForecastSQL.site_uuid r.1 ∈ [10%N]).
Proof.
  apply (get_forecasts_by_sites_rows_from_start canonical_uuid canonical_uuid
           Row Row id id two_runs [uuid_A] [10%N] [10%N] T0 30 false
           {| utcnow := T0 + minutes 180; executed := [] |}).
  - repeat constructor.
  - repeat constructor.
  - vm_compute. split; discriminate.
  - vm_compute. split; discriminate.
Defined.

(** X6: a request whose [start_utc] is not before the clock reading gets no
    historical row: when nothing raises, the converter is handed exactly the
    values of the latest run of each requested site that start at or after
    [start_utc]. *)
Theorem get_forecasts_by_sites_start_not_in_past
    uuid_UUID uuid_in (Forecast OneDatetimeManyForecasts : Type)
    (forecast_rows_to_pydantic : list Row → list Forecast)
    (forecast_rows_to_pydantic_compact : list Row → list OneDatetimeManyForecasts)
    session site_uuids bound_uuids parsed_uuids start_utc horizon_minutes
    compact w :
  Forall2 (λ su u, uuid_in su = Some u) site_uuids bound_uuids →
  Forall2 (λ su u, uuid_UUID su = Some u) site_uuids parsed_uuids →
  datetime_valid start_utc →
  datetime_valid (start_utc - horizon_minutes * 60000000) →
  utcnow w ≤ start_utc →
  _get_forecasts_for_horizon uuid_in session site_uuids start_utc (utcnow w)
    horizon_minutes w
  = (Ok [], record_statement SelectForecastsForHorizon w)
  ∧ ∃ rows w',
      _get_latest_forecast_by_sites uuid_UUID session site_uuids
        (Some start_utc) (record_statement SelectForecastsForHorizon w)
      = (Ok rows, w')
      ∧ get_forecasts_by_sites uuid_UUID uuid_in forecast_rows_to_pydantic
          forecast_rows_to_pydantic_compact session site_uuids start_utc
          horizon_minutes compact w
        = (Ok (if compact then inr (forecast_rows_to_pydantic_compact rows)
               else inl (forecast_rows_to_pydantic rows)), w').
Proof.
  intros Hbound Hparsed Hstart Hlower Hnow.
  assert (_get_forecasts_for_horizon uuid_in session site_uuids start_utc
            (utcnow w) horizon_minutes w
          = (Ok [], record_statement SelectForecastsForHorizon w)) as Hpast.
  { rewrite (get_forecasts_for_horizon_rows uuid_in session site_uuids
               bound_uuids start_utc (utcnow w) horizon_minutes Hbound
               Hstart Hlower).
    unfold horizon_candidates. rewrite filter_none; [done|].
    intros r (_ & _ & Hwin & _). lia. }
  split; [done|]. eexists _, _. split.
  { by apply get_latest_forecast_by_sites_rows with (uuids := parsed_uuids). }
  rewrite get_forecasts_by_sites_unfold, Hpast.
  by rewrite (get_latest_forecast_by_sites_rows session parsed_uuids uuid_UUID
                site_uuids (Some start_utc) _ Hparsed).
Qed.

(** X6 for a request that starts at the clock reading. *)
Lemma get_forecasts_by_sites_start_not_in_past_witness :
  _get_forecasts_for_horizon canonical_uuid two_runs [uuid_A] T0 T0 30 world0
  = (Ok [], record_statement SelectForecastsForHorizon world0)
  ∧ ∃ rows w',
      _get_latest_forecast_by_sites canonical_uuid two_runs [uuid_A] (Some T0)
        (record_statement SelectForecastsForHorizon world0)
      = (Ok rows, w')
      ∧ get_forecasts_by_sites canonical_uuid canonical_uuid id id two_runs
          [uuid_A] T0 30 false world0
        = (Ok (inl rows), w').
Proof.
  apply (get_forecasts_by_sites_start_not_in_past canonical_uuid
           canonical_uuid Row Row id id two_runs [uuid_A] [10%N] [10%N] T0 30
           false world0).
  - repeat constructor.
  - repeat constructor.
  - vm_compute. split; discriminate.
  - vm_compute. split; discriminate.
  - reflexivity.
Defined.

(** ** Failures of the access checks *)

(** X7: an auth dict without the email claim makes both access checks raise
    [KeyError] on the claim name; the user is not looked up. *)
Theorem access_checks_missing_email_claim
    (get_user_by_email : Session → string → M UserSQL.t)
    session (auth : gmap string string) site_uuid site_uuids w :
  auth !! email_claim = None →
  check_user_has_access_to_site get_user_by_email session auth site_uuid w
  = (Raise (KeyError email_claim), w)
  ∧ check_user_has_access_to_sites get_user_by_email session auth site_uuids w
    = (Raise (KeyError email_claim), w).
Proof.
  intros Hauth.
  assert (dict_getitem auth email_claim w = (Raise (KeyError email_claim), w))
    as Hget.
  { unfold dict_getitem. by rewrite Hauth. }
  split.
  - unfold check_user_has_access_to_site. by apply bind_Raise.
  - unfold check_user_has_access_to_sites. by apply bind_Raise.
Qed.

(** X7 on an empty auth dict, with a lookup that would have failed. *)
Lemma access_checks_missing_email_claim_witness :
  check_user_has_access_to_site failing_lookup empty_session ∅ uuid_A world0
  = (Raise (KeyError email_claim), world0)
  ∧ check_user_has_access_to_sites failing_lookup empty_session ∅
      [uuid_A; uuid_B] world0
    = (Raise (KeyError email_claim), world0).
Proof.
  apply (access_checks_missing_email_claim failing_lookup empty_session ∅
           uuid_A [uuid_A; uuid_B] world0).
  reflexivity.
Defined.

(** X8: when the lookup of the user raises, both access checks raise that
    exception, in the world the lookup left: no Forbidden error replaces it. *)
Theorem access_checks_lookup_failure
    (get_user_by_email : Session → string → M UserSQL.t)
    session (auth : gmap string string) email e site_uuid site_uuids w w' :
  auth !! email_claim = Some email →
  get_user_by_email session email w = (Raise e, w') →
  check_user_has_access_to_site get_user_by_email session auth site_uuid w
  = (Raise e, w')
  ∧ check_user_has_access_to_sites get_user_by_email session auth site_uuids w
    = (Raise e, w').
Proof.
  intros Hauth Huser. split.
  - unfold check_user_has_access_to_site.
    rewrite (bind_Ok _ _ _ _ _ (dict_getitem_Some _ _ _ _ Hauth)).
    by apply bind_Raise.
  - unfold check_user_has_access_to_sites.
    rewrite (bind_Ok _ _ _ _ _ (dict_getitem_Some _ _ _ _ Hauth)).
    by apply bind_Raise.
Qed.

(** X8 with a lookup that fails. *)
Lemma access_checks_lookup_failure_witness :
  check_user_has_access_to_site failing_lookup empty_session alice_auth uuid_A
    world0
  = (Raise DBAPIError, world0)
  ∧ check_user_has_access_to_sites failing_lookup empty_session alice_auth
      [uuid_A] world0
    = (Raise DBAPIError, world0).
Proof.
  apply (access_checks_lookup_failure failing_lookup empty_session alice_auth
           "alice@example.org" DBAPIError uuid_A [uuid_A] world0 world0).
  - reflexivity.
  - reflexivity.
Defined.

(** ** The spelling the single-site check accepts *)

Lemma length_hex_digits n x : length (hex_digits n x) = n.
Proof.
  revert x. induction n as [|n IH]; intros x; [done|].
  cbn [hex_digits]. rewrite length_app, IH. cbn. lia.
Qed.

Lemma hex_digit_canonical d : canonical_char (hex_digit d).
Proof.
  unfold canonical_char.
  destruct d as [|p]; [right; left; cbn; lia|].
  do 4 (try destruct p as [p|p|]);
    solve [right; left; cbn; lia | right; right; cbn; lia].
Qed.

Lemma hex_digits_canonical n x : Forall canonical_char (hex_digits n x).
Proof.
  revert x. induction n as [|n IH]; intros x; [constructor|].
  cbn. apply Forall_app. split; [apply IH|].
  constructor; [apply hex_digit_canonical|constructor].
Qed.

Lemma str_uuid_canonical u :
  length (String.list_ascii_of_string (str_uuid u)) = 36%nat
  ∧ Forall canonical_char (String.list_ascii_of_string (str_uuid u)).
Proof.
  unfold str_uuid. rewrite String.list_ascii_of_string_of_list_ascii.
  pose proof (length_hex_digits 32 u) as Hlen.
  pose proof (hex_digits_canonical 32 u) as Hall.
  split.
  - repeat first [rewrite length_app | rewrite length_cons
                 | rewrite length_take | rewrite length_drop].
    rewrite Hlen. reflexivity.
  - assert (canonical_char "-"%char) as Hh by (by left).
    repeat first
      [ apply Forall_app; split
      | apply Forall_cons; split; [exact Hh|]
      | by apply Forall_take
      | by apply Forall_drop
      | by apply Forall_take, Forall_drop ].
Qed.

(** X9: the single-site check lets an identifier through only in the
    spelling [str] gives a UUID: whenever it returns, the requested string is
    [str(u)] for some UUID [u], so it has 36 characters, each a hyphen, a
    digit or a lower-case letter from [a] to [f]. *)
Theorem check_user_has_access_to_site_canonical_spelling
    (get_user_by_email : Session → string → M UserSQL.t)
    session (auth : gmap string string) site_uuid w w' :
  check_user_has_access_to_site get_user_by_email session auth site_uuid w
  = (Ok tt, w') →
  (∃ u : UUID, site_uuid = str_uuid u)
  ∧ length (String.list_ascii_of_string site_uuid) = 36%nat
  ∧ Forall canonical_char (String.list_ascii_of_string site_uuid).
Proof.
  unfold check_user_has_access_to_site, dict_getitem, mbind, M_bind, mret,
    M_ret, raise.
  destruct (auth !! email_claim) as [email|]; [|done].
  destruct (get_user_by_email session email w) as [[user|e] w1]; [|done].
  case_bool_decide as Hin; [done|]. intros _.
  apply list_elem_of_fmap in Hin as (site & -> & _).
  split; [by eexists|]. apply str_uuid_canonical.
Qed.

(** X9 for an entitled site. *)
Lemma check_user_has_access_to_site_canonical_spelling_witness :
  (∃ u : UUID, uuid_A = str_uuid u)
  ∧ length (String.list_ascii_of_string uuid_A) = 36%nat
  ∧ Forall canonical_char (String.list_ascii_of_string uuid_A).
Proof.
  apply (check_user_has_access_to_site_canonical_spelling
           (lookup_user [alice]) empty_session alice_auth uuid_A world0 world0).
  reflexivity.
Defined.

(** The upper-case spelling of an entitled site is refused. *)
Example check_user_has_access_to_site_upper_case :
  check_user_has_access_to_site (lookup_user [alice]) empty_session alice_auth
    "00000000-0000-0000-0000-00000000000A" world0
  = (Raise (HTTPException 403
       ("Forbidden. User (alice@example.org) does not have access to this site "
        +:+ "00000000-0000-0000-0000-00000000000A. User has access to "
        +:+ "['00000000-0000-0000-0000-00000000000a', "
        +:+ "'00000000-0000-0000-0000-00000000000b']")), world0).
Proof. by vm_compute. Qed.

(** ** The site helpers *)

Lemma filter_key_NoDup {A K} `{EqDecision K} (key : A → K) (k : K) l :
  NoDup (key <$> l) →
  (filter (λ x, key x = k) l = [] ∧ k ∉ key <$> l)
  ∨ (∃ x, filter (λ x, key x = k) l = [x] ∧ k ∈ key <$> l).
Proof.
  induction l as [|a l IH]; intros Hnd.
  { left. split; [done|apply not_elem_of_nil]. }
  rewrite fmap_cons in Hnd. apply NoDup_cons in Hnd as [Ha Hnd].
  rewrite filter_cons, fmap_cons.
  destruct (decide (key a = k)) as [<-|Hne].
  - right. exists a. split; [|apply list_elem_of_here].
    by destruct (IH Hnd) as [[-> _]|(x & _ & Hin)].
  - destruct (IH Hnd) as [[-> Hnot]|(x & -> & Hin)].
    + left. split; [done|]. by apply not_elem_of_cons.
    + right. exists x. split; [done|]. by apply list_elem_of_further.
Qed.

Lemma filter_two {A} (P : A → Prop) `{!∀ x, Decision (P x)} l (i j : nat) a b :
  (i < j)%nat → l !! i = Some a → l !! j = Some b → P a → P b →
  ∃ x y rest, filter P l = x :: y :: rest.
Proof.
  revert i j. induction l as [|c l IH]; intros i j Hij Hi Hj Ha Hb; [done|].
  destruct j as [|j]; [lia|]. destruct i as [|i].
  - injection Hi as ->. rewrite filter_cons_True by done.
    assert (b ∈ filter P l) as Hin.
    { apply list_elem_of_filter. split; [done|].
      by eapply list_elem_of_lookup_2. }
    destruct (filter P l) as [|y rest]; [by apply elem_of_nil in Hin|].
    by eexists _, _, _.
  - destruct (IH i j) as (x & y & rest & Hfilter); [lia|done..|].
    rewrite filter_cons, Hfilter. destruct (decide (P c)); by eexists _, _, _.
Qed.

Lemma filter_ext_elem_of {A} (P Q : A → Prop) `{!∀ x, Decision (P x)}
    `{!∀ x, Decision (Q x)} (l : list A) :
  (∀ x, x ∈ l → P x ↔ Q x) → filter P l = filter Q l.
Proof.
  induction l as [|a l IH]; intros HPQ; [done|].
  rewrite !filter_cons, IH by (intros x Hx; apply HPQ; by right).
  destruct (decide (P a)) as [HP|HP], (decide (Q a)) as [HQ|HQ]; try done.
  - exfalso. apply HQ, HPQ; [by left|done].
  - exfalso. apply HP, HPQ; [by left|done].
Qed.

Section sites.
Variable uuid_in : string → option UUID.
Variable sites_table : Session → list SiteSQL.t.
Variable PVSiteMetadata : Type.
Variable site_to_pydantic : SiteSQL.t → result PVSiteMetadata.
Variable session : Session.

Lemma does_site_exist_bound site_uuid u :
  uuid_in site_uuid = Some u →
  does_site_exist uuid_in sites_table session site_uuid
  = match one_or_none (filter (λ site, SiteSQL.site_uuid site = u)
                         (sites_table session)) with
    | inl e => inl e
    | inr row => inr (bool_decide (row ≠ None))
    end.
Proof. intros Hu. unfold does_site_exist, bind_uuid. by rewrite Hu. Qed.

Lemma get_sites_by_uuids_single site_uuid u :
  uuid_in site_uuid = Some u →
  get_sites_by_uuids uuid_in sites_table site_to_pydantic session [site_uuid]
  = list_comp site_to_pydantic
      (filter (λ site, SiteSQL.site_uuid site = u) (sites_table session)).
Proof.
  intros Hu. unfold get_sites_by_uuids. cbn [list_comp]. unfold bind_uuid.
  rewrite Hu. f_equal. apply list_filter_iff. intros site.
  apply list_elem_of_singleton.
Qed.
End sites.

(** X10: when no two stored sites share a site_uuid, [does_site_exist]
    answers [True] exactly when a stored site carries the identifier the
    string denotes, [False] otherwise, and does not raise. *)
Theorem does_site_exist_unique
    uuid_in (sites_table : Session → list SiteSQL.t) session site_uuid u :
  uuid_in site_uuid = Some u →
  NoDup (SiteSQL.site_uuid <$> sites_table session) →
  does_site_exist uuid_in sites_table session site_uuid
  = inr (bool_decide (u ∈ SiteSQL.site_uuid <$> sites_table session)).
Proof.
  intros Hu Hnd. rewrite (does_site_exist_bound _ _ _ _ _ Hu).
  destruct (filter_key_NoDup SiteSQL.site_uuid u _ Hnd)
    as [[-> Hnot]|(x & -> & Hin)]; cbn [one_or_none].
  - by rewrite (bool_decide_eq_false_2 (u ∈ _)), bool_decide_eq_false_2
      by (by intros ?).
  - by rewrite (bool_decide_eq_true_2 (u ∈ _)), bool_decide_eq_true_2.
Qed.

(** X10 for a stored site. *)
Lemma does_site_exist_unique_witness :
  does_site_exist canonical_uuid sites_A_B empty_session uuid_B
  = inr (bool_decide (11%N ∈ SiteSQL.site_uuid <$> sites_A_B empty_session)).
Proof.
  apply (does_site_exist_unique canonical_uuid sites_A_B empty_session uuid_B
           11%N).
  - reflexivity.
  - apply (bool_decide_unpack _). vm_compute. exact I.
Defined.

(** X11: when two rows of the sites table carry the requested identifier,
    [does_site_exist] raises [MultipleResultsFound] instead of answering. *)
Theorem does_site_exist_duplicate
    uuid_in (sites_table : Session → list SiteSQL.t) session site_uuid u
    (i j : nat) site1 site2 :
  uuid_in site_uuid = Some u →
  i ≠ j →
  sites_table session !! i = Some site1 →
  sites_table session !! j = Some site2 →
  SiteSQL.site_uuid site1 = u → SiteSQL.site_uuid site2 = u →
  does_site_exist uuid_in sites_table session site_uuid
  = inl MultipleResultsFound.
Proof.
  intros Hu Hij Hi Hj H1 H2. rewrite (does_site_exist_bound _ _ _ _ _ Hu).
  assert (∃ x y rest,
            filter (λ site, SiteSQL.site_uuid site = u) (sites_table session)
            = x :: y :: rest) as (x & y & rest & ->); [|done].
  destruct (decide (i < j)%nat).
  - by apply (filter_two _ _ i j site1 site2).
  - apply (filter_two _ _ j i site2 site1); [lia|done..].
Qed.

(** X11 on a table that holds site A twice. *)
Lemma does_site_exist_duplicate_witness :
  does_site_exist canonical_uuid sites_A_A empty_session uuid_A
  = inl MultipleResultsFound.
Proof.
  apply (does_site_exist_duplicate canonical_uuid sites_A_A empty_session
           uuid_A 10%N 0%nat 1%nat site_A (SiteSQL.mk 10%N 7 "A again")).
  - reflexivity.
  - discriminate.
  - reflexivity.
  - reflexivity.
  - reflexivity.
  - reflexivity.
Defined.

(** X12: [get_sites_by_uuids] depends on the requested identifiers only
    through the stored sites they select: two requests that select the same
    stored sites give the same result, so identifiers of no stored site are
    skipped without an error, and repeating or reordering identifiers changes
    nothing. *)
Theorem get_sites_by_uuids_selected_sites
    uuid_in (sites_table : Session → list SiteSQL.t) (PVSiteMetadata : Type)
    (site_to_pydantic : SiteSQL.t → result PVSiteMetadata)
    session site_uuids1 uuids1 site_uuids2 uuids2 :
  Forall2 (λ su u, uuid_in su = Some u) site_uuids1 uuids1 →
  Forall2 (λ su u, uuid_in su = Some u) site_uuids2 uuids2 →
  (∀ site, site ∈ sites_table session →
           SiteSQL.site_uuid site ∈ uuids1 ↔ SiteSQL.site_uuid site ∈ uuids2) →
  get_sites_by_uuids uuid_in sites_table site_to_pydantic session site_uuids1
  = get_sites_by_uuids uuid_in sites_table site_to_pydantic session site_uuids2.
Proof.
  intros H1 H2 Hsel. unfold get_sites_by_uuids.
  rewrite (bind_uuid_Forall2 _ _ _ H1), (bind_uuid_Forall2 _ _ _ H2).
  f_equal. by apply filter_ext_elem_of.
Qed.

(** X12 for a request with an unknown and a repeated identifier. *)
Lemma get_sites_by_uuids_selected_sites_witness :
  get_sites_by_uuids canonical_uuid sites_A_B site_identifier empty_session
    [uuid_C; uuid_B; uuid_B]
  = get_sites_by_uuids canonical_uuid sites_A_B site_identifier empty_session
      [uuid_B].
Proof.
  apply (get_sites_by_uuids_selected_sites canonical_uuid sites_A_B string
           site_identifier empty_session [uuid_C; uuid_B; uuid_B]
           [12%N; 11%N; 11%N] [uuid_B] [11%N]).
  - repeat constructor.
  - repeat constructor.
  - intros site Hsite. apply (bool_decide_unpack _).
    revert site Hsite. apply Forall_forall. vm_compute. repeat constructor.
Defined.

(** X13: when no two stored sites share a site_uuid and every stored site
    converts, [does_site_exist] and [get_sites_by_uuids] agree on one
    identifier: the first answers [True] exactly when the second lists one
    site, and [False] exactly when it lists none. *)
Theorem does_site_exist_agrees_with_listing
    uuid_in (sites_table : Session → list SiteSQL.t) (PVSiteMetadata : Type)
    (site_to_pydantic : SiteSQL.t → result PVSiteMetadata)
    session site_uuid u :
  uuid_in site_uuid = Some u →
  NoDup (SiteSQL.site_uuid <$> sites_table session) →
  (∀ site, site ∈ sites_table session → ∃ m, site_to_pydantic site = Ok m) →
  (does_site_exist uuid_in sites_table session site_uuid = inr true
   ↔ ∃ m, get_sites_by_uuids uuid_in sites_table site_to_pydantic session
            [site_uuid] = Ok [m])
  ∧ (does_site_exist uuid_in sites_table session site_uuid = inr false
     ↔ get_sites_by_uuids uuid_in sites_table site_to_pydantic session
         [site_uuid] = Ok []).
Proof.
  intros Hu Hnd Hconv.
  rewrite (does_site_exist_bound _ _ _ _ _ Hu).
  rewrite (get_sites_by_uuids_single _ _ _ site_to_pydantic _ _ _ Hu).
  destruct (filter_key_NoDup SiteSQL.site_uuid u _ Hnd)
    as [[Hfilter _]|(x & Hfilter & _)].
  - rewrite Hfilter. cbn [one_or_none list_comp].
    rewrite bool_decide_eq_false_2 by (by intros ?).
    split; [|done]. split; [done|]. by intros [m [=]].
  - assert (x ∈ sites_table session) as Hx.
    { assert (x ∈ filter (λ site, SiteSQL.site_uuid site = u)
                    (sites_table session)) as Hin
        by (rewrite Hfilter; apply list_elem_of_here).
      by apply list_elem_of_filter in Hin as [_ ?]. }
    destruct (Hconv x Hx) as [m Hm].
    rewrite Hfilter. cbn [one_or_none list_comp]. rewrite Hm.
    rewrite bool_decide_eq_true_2 by done.
    split; [|done]. split; [by exists m|done].
Qed.

(** X13 for a stored site. *)
Lemma does_site_exist_agrees_with_listing_witness :
  (does_site_exist canonical_uuid sites_A_B empty_session uuid_A = inr true
   ↔ ∃ m, get_sites_by_uuids canonical_uuid sites_A_B site_identifier
            empty_session [uuid_A] = Ok [m])
  ∧ (does_site_exist canonical_uuid sites_A_B empty_session uuid_A = inr false
     ↔ get_sites_by_uuids canonical_uuid sites_A_B site_identifier
         empty_session [uuid_A] = Ok []).
Proof.
  apply (does_site_exist_agrees_with_listing canonical_uuid sites_A_B string
           site_identifier empty_session uuid_A 10%N).
  - reflexivity.
  - apply (bool_decide_unpack _). vm_compute. exact I.
  - intros site _. by eexists.
Defined.

(** ** Failure of the generation fetch *)

(** X14: when the identifiers parse and the fetch of the readings raises,
    [get_generation_by_sites] raises that exception, in the world the fetch
    left, for either output shape. *)
Theorem get_generation_by_sites_fetch_failure
    uuid_UUID
    (get_pv_generation_by_sites :
       Session → datetime → list UUID → M (list GenerationSQL.t))
    session site_uuids uuids start_utc e compact w w' :
  Forall2 (λ su u, uuid_UUID su = Some u) site_uuids uuids →
  get_pv_generation_by_sites session start_utc uuids w = (Raise e, w') →
  get_generation_by_sites uuid_UUID get_pv_generation_by_sites session
    site_uuids start_utc compact w
  = (Raise e, w').
Proof.
  intros Hall Hfetch. unfold get_generation_by_sites.
  erewrite bind_Ok by (unfold lift; by rewrite (py_uuid_Forall2 _ _ _ Hall)).
  by apply bind_Raise.
Qed.

(** X14 with a fetch that fails. *)
Lemma get_generation_by_sites_fetch_failure_witness :
  get_generation_by_sites canonical_uuid failing_fetch empty_session
    [uuid_A; uuid_B] T0 true world0
  = (Raise DBAPIError, world0).
Proof.
  apply (get_generation_by_sites_fetch_failure canonical_uuid failing_fetch
           empty_session [uuid_A; uuid_B] [10%N; 11%N] T0 DBAPIError true
           world0 world0).
  - repeat constructor.
  - reflexivity.
Defined.

(** ** Rows handed to the converter twice *)

Lemma join_forecast_values_NoDup fs vs :
  NoDup fs → NoDup vs → NoDup (join_forecast_values fs vs).
Proof.
  intros Hfs Hvs. unfold join_forecast_values. apply NoDup_bind; [| |done].
  - intros f1 f2 r _ _ (v1 & -> & _)%list_elem_of_fmap
      (v2 & [= -> _] & _)%list_elem_of_fmap.
    done.
  - intros f _. apply NoDup_fmap_2; [|by apply NoDup_filter].
    by intros v1 v2 [=].
Qed.

(** X15: when no stored value is held twice and nothing raises, neither
    slice of [get_forecasts_by_sites] holds a row twice; a row that is in
    both slices, and so is handed to the converter twice, is a pair of the
    latest run of its site whose value has the requested horizon and a target
    time between [start_utc] and the clock reading. *)
Theorem get_forecasts_by_sites_row_twice
    uuid_UUID uuid_in session site_uuids bound_uuids parsed_uuids start_utc
    horizon_minutes w :
  Forall2 (λ su u, uuid_in su = Some u) site_uuids bound_uuids →
  Forall2 (λ su u, uuid_UUID su = Some u) site_uuids parsed_uuids →
  datetime_valid start_utc →
  datetime_valid (start_utc - horizon_minutes * 60000000) →
  NoDup (forecast_values session) →
  ∃ rows_past rows_future,
    _get_forecasts_for_horizon uuid_in session site_uuids start_utc (utcnow w)
      horizon_minutes w
    = (Ok rows_past, record_statement SelectForecastsForHorizon w)
    ∧ _get_latest_forecast_by_sites uuid_UUID session site_uuids
        (Some start_utc) (record_statement SelectForecastsForHorizon w)
      = (Ok rows_future,
         record_statement SelectLatestForecastBySites
           (record_statement SelectForecastsForHorizon w))
    ∧ NoDup rows_past ∧ NoDup rows_future
    ∧ ∀ r, r ∈ rows_past → r ∈ rows_future →
           in_horizon_window bound_uuids start_utc (utcnow w)
             horizon_minutes r
           ∧ latest_run session r.1.
Proof.
  intros Hbound Hparsed Hstart Hlower Hvalues. eexists _, _. split_and!.
  - by apply get_forecasts_for_horizon_rows with (uuids := bound_uuids).
  - by apply get_latest_forecast_by_sites_rows with (uuids := parsed_uuids).
  - eapply NoDup_fmap_1, (distinct_on_NoDup (λ r : Row, run_key r.1)).
  - apply NoDup_filter, join_forecast_values_NoDup; [|done].
    eapply NoDup_fmap_1, (distinct_on_NoDup ForecastSQL.site_uuid).
  - intros r Hpast Hfuture. split.
    + apply historical_row_first, head_Some_elem_of in Hpast.
      apply list_elem_of_filter in Hpast as [_ Hpast].
      by apply elem_of_horizon_candidates in Hpast as [_ ?].
    + destruct r as [f v].
      apply list_elem_of_filter in Hfuture as [_ Hfuture].
      apply elem_of_join_forecast_values in Hfuture as (Hf & _).
      by destruct (latest_run_per_site_elem _ _ _ Hf) as (_ & ? & _).
Qed.

(** X15 on the session whose only run is both in the past window and the
    latest. *)
Lemma get_forecasts_by_sites_row_twice_witness :
  ∃ rows_past rows_future,
    _get_forecasts_for_horizon canonical_uuid one_run [uuid_A] T0
      (T0 + minutes 60) 30 {| utcnow := T0 + minutes 60; executed := [] |}
    = (Ok rows_past,
       record_statement SelectForecastsForHorizon
         {| utcnow := T0 + minutes 60; executed := [] |})
    ∧ _get_latest_forecast_by_sites canonical_uuid one_run [uuid_A] (Some T0)
        (record_statement SelectForecastsForHorizon
           {| utcnow := T0 + minutes 60; executed := [] |})
      = (Ok rows_future,
         record_statement SelectLatestForecastBySites
           (record_statement SelectForecastsForHorizon
              {| utcnow := T0 + minutes 60; executed := [] |}))
    ∧ NoDup rows_past ∧ NoDup rows_future
    ∧ ∀ r, r ∈ rows_past → r ∈ rows_future →
           in_horizon_window [10%N] T0 (T0 + minutes 60) 30 r
           ∧ latest_run one_run r.1.
Proof.
  apply (get_forecasts_by_sites_row_twice canonical_uuid canonical_uuid
           one_run [uuid_A] [10%N] [10%N] T0 30
           {| utcnow := T0 + minutes 60; executed := [] |}).
  - repeat constructor.
  - repeat constructor.
  - vm_compute. split; discriminate.
  - vm_compute. split; discriminate.
  - apply (bool_decide_unpack _). vm_compute. exact I.
Defined.

(** ** Requests for no site *)

(** X16: a request that names no site still runs: [get_forecasts_by_sites]
    sends both statements and hands the converter the empty list, and
    [get_sites_by_uuids] returns the empty list, whatever is stored. *)
Theorem empty_request
    uuid_UUID uuid_in (Forecast OneDatetimeManyForecasts : Type)
    (forecast_rows_to_pydantic : list Row → list Forecast)
    (forecast_rows_to_pydantic_compact : list Row → list OneDatetimeManyForecasts)
    (sites_table : Session → list SiteSQL.t) (PVSiteMetadata : Type)
    (site_to_pydantic : SiteSQL.t → result PVSiteMetadata)
    session start_utc horizon_minutes compact w :
  datetime_valid start_utc →
  datetime_valid (start_utc - horizon_minutes * 60000000) →
  get_forecasts_by_sites uuid_UUID uuid_in forecast_rows_to_pydantic
    forecast_rows_to_pydantic_compact session [] start_utc horizon_minutes
    compact w
  = (Ok (if compact then inr (forecast_rows_to_pydantic_compact [])
         else inl (forecast_rows_to_pydantic [])),
     record_statement SelectLatestForecastBySites
       (record_statement SelectForecastsForHorizon w))
  ∧ get_sites_by_uuids uuid_in sites_table site_to_pydantic session []
    = Ok [].
Proof.
  intros Hstart Hlower. split.
  - rewrite (get_forecasts_by_sites_rows uuid_UUID uuid_in _ _ _ _ session []
               [] [] start_utc horizon_minutes compact) by (done || constructor).
    cbn zeta. unfold horizon_candidates, latest_run_per_site.
    rewrite (filter_none (in_horizon_window [] _ _ _));
      last by (intros r [?%elem_of_nil _]).
    rewrite (filter_none (λ f, ForecastSQL.site_uuid f ∈ []));
      last by (intros f ?%elem_of_nil).
    done.
  - unfold get_sites_by_uuids. cbn [list_comp].
    by rewrite filter_none by (by intros site ?%elem_of_nil).
Qed.

(** X16 on the scenario of the specification. *)
Lemma empty_request_witness :
  get_forecasts_by_sites canonical_uuid canonical_uuid id id two_runs [] T0 30
    false world0
  = (Ok (inl []),
     record_statement SelectLatestForecastBySites
       (record_statement SelectForecastsForHorizon world0))
  ∧ get_sites_by_uuids canonical_uuid sites_A_B site_identifier two_runs []
    = Ok [].
Proof.
  apply (empty_request canonical_uuid canonical_uuid Row Row id id sites_A_B
           string site_identifier two_runs T0 30 false world0).
  - vm_compute. split; discriminate.
  - vm_compute. split; discriminate.
Defined.
